(** * Ordoro -> Snowflake inventory sync: a shallow embedding of [shipping.py]

    The development follows the layout of the script:
    - Python values as decoded by [r.json()] and the handful of builtins the
      script relies on (truthiness, [==], [str], [dict.get]);
    - [_request_with_retry] over an explicit model of the network;
    - the dual-mode pagination generator [iter_products_batches];
    - text cleaning ([_safe_str], [_join_tags], [_join_carts]) and the
      field mapping ([base_product_cols], [rows_for_warehouses]);
    - the pandas cleaning stage ([clean_products_df], [clean_wh_df]);
    - the de-duplicating loop of [main]. *)

From Stdlib Require Import ZArith QArith Qabs Qround Qpower Bool List Lia.
From Stdlib Require Import Strings.String Strings.Ascii Numbers.DecimalString.
Import ListNotations.

Set Warnings "-register-all".

Open Scope string_scope.
Open Scope list_scope.
Open Scope Z_scope.

(* ##################################################################### *)
(** * Part I. The script

    The data the script handles and its functions, in the order of the
    source file. *)
(* ##################################################################### *)

(* ===================================================================== *)
(** ** Python values *)
(* ===================================================================== *)

(** What [json.loads] produces.  Numbers are Python [int]s or finite
    [float]s (a finite double is a rational); objects keep their keys in
    document order, [dict.get] returning the binding found first. Text is
    kept as its UTF-8 bytes. *)
Inductive json : Type :=
| JNull
| JBool (b : bool)
| JInt (z : Z)
| JFloat (q : Q)
| JStr (s : string)
| JList (l : list json)
| JDict (d : list (string * json)).

(** Exceptions the script can run into. *)
Inductive request_exception : Type :=
| TransportFailure (what : string)   (* ConnectionError, Timeout, ... from requests.get *)
| RetryableStatus (status : Z)       (* HTTPError("Retryable status ...") of line 91 *)
| StatusError (status : Z).          (* HTTPError of r.raise_for_status() *)

Inductive exn : Type :=
| RequestException (e : request_exception)
| RuntimeError (msg : string)
| JSONDecodeError
| AttributeError
| TypeError
| ZeroDivisionError
| UnboundLocalError
| ValueError
| OverflowError
| PandasError.

Inductive result (A : Type) : Type :=
| Ok (a : A)
| Raise (e : exn).
Arguments Ok {A} a.
Arguments Raise {A} e.

Definition bind {A B} (m : result A) (k : A -> result B) : result B :=
  match m with
  | Ok a => k a
  | Raise e => Raise e
  end.

Notation "x <- m ;; k" := (bind m (fun x => k))
  (at level 61, m at next level, right associativity).

Module Py.

(** [bool(x)] *)
Definition truthy (v : json) : bool :=
  match v with
  | JNull => false
  | JBool b => b
  | JInt z => negb (z =? 0)
  | JFloat q => negb (Qeq_bool q 0)
  | JStr s => negb (String.eqb s "")
  | JList l => match l with [] => false | _ => true end
  | JDict d => match d with [] => false | _ => true end
  end.

(** [a or b] *)
Definition or_ (a b : json) : json := if truthy a then a else b.

(** [d.get(k)] on the bindings of a dict. *)
Fixpoint assoc {A} (k : string) (d : list (string * A)) : option A :=
  match d with
  | [] => None
  | (k', v) :: d' => if String.eqb k k' then Some v else assoc k d'
  end.

Definition get (d : list (string * json)) (k : string) : json :=
  match assoc k d with
  | Some v => v
  | None => JNull
  end.

(** [x is None] *)
Definition is_none (v : json) : bool :=
  match v with JNull => true | _ => false end.

(** [a == b].  [bool] is a subclass of [int], and [int]s compare with
    [float]s by value; sequences compare element-wise, dicts as maps. *)
Fixpoint eqb (a b : json) {struct a} : bool :=
  match a, b with
  | JNull, JNull => true
  | JBool x, JBool y => Bool.eqb x y
  | JBool x, JInt z => Z.b2z x =? z
  | JBool x, JFloat q => Qeq_bool (inject_Z (Z.b2z x)) q
  | JInt z, JBool x => z =? Z.b2z x
  | JInt z, JInt z' => z =? z'
  | JInt z, JFloat q => Qeq_bool (inject_Z z) q
  | JFloat q, JBool x => Qeq_bool q (inject_Z (Z.b2z x))
  | JFloat q, JInt z => Qeq_bool q (inject_Z z)
  | JFloat q, JFloat q' => Qeq_bool q q'
  | JStr s, JStr s' => String.eqb s s'
  | JList xs, JList ys =>
      (fix go (xs ys : list json) {struct xs} : bool :=
         match xs, ys with
         | [], [] => true
         | x :: xs', y :: ys' => eqb x y && go xs' ys'
         | _, _ => false
         end) xs ys
  | JDict d, JDict d' =>
      (List.length d =? List.length d')%nat &&
      (fix go (d : list (string * json)) {struct d} : bool :=
         match d with
         | [] => true
         | (k, v) :: rest =>
             match assoc k d' with
             | Some w => eqb v w
             | None => false
             end && go rest
         end) d
  | _, _ => false
  end.

(** [hash(x)] succeeds: lists and dicts are unhashable. *)
Definition hashable (v : json) : bool :=
  match v with
  | JList _ | JDict _ => false
  | _ => true
  end.

Definition Z_to_string (z : Z) : string :=
  NilEmpty.string_of_int (Z.to_int z).

(** [str(x)].  The [repr] of floats and of containers is not spelled out
    by the script; it is the parameter [repr]. *)
Definition str (repr : json -> string) (v : json) : string :=
  match v with
  | JNull => "None"
  | JBool true => "True"
  | JBool false => "False"
  | JInt z => Z_to_string z
  | JStr s => s
  | JFloat _ | JList _ | JDict _ => repr v
  end.

(** [s.replace(c, by)] for a one-character pattern. *)
Fixpoint replace (c : ascii) (by_ : string) (s : string) : string :=
  match s with
  | EmptyString => EmptyString
  | String a s' =>
      if Ascii.eqb a c then (by_ ++ replace c by_ s')%string
      else String a (replace c by_ s')
  end.

(** [s.lstrip(c)], [s.rstrip(c)], [s.strip(c)] for a one-character set. *)
Fixpoint lstrip (c : ascii) (s : string) : string :=
  match s with
  | String a s' => if Ascii.eqb a c then lstrip c s' else s
  | EmptyString => EmptyString
  end.

Fixpoint rstrip (c : ascii) (s : string) : string :=
  match s with
  | EmptyString => EmptyString
  | String a s' =>
      match rstrip c s' with
      | EmptyString => if Ascii.eqb a c then EmptyString else String a EmptyString
      | r => String a r
      end
  end.

Definition strip (c : ascii) (s : string) : string := rstrip c (lstrip c s).

(** [sep.join(parts)] *)
Fixpoint join (sep : string) (parts : list string) : string :=
  match parts with
  | [] => ""
  | [p] => p
  | p :: rest => (p ++ sep ++ join sep rest)%string
  end.

(** [s.split(c)] for a one-character separator: never the empty list. *)
Fixpoint split (c : ascii) (s : string) : list string :=
  match s with
  | EmptyString => [""]
  | String a s' =>
      if Ascii.eqb a c then "" :: split c s'
      else match split c s' with
           | [] => [String a ""]
           | w :: ws => String a w :: ws
           end
  end.


End Py.

(* ===================================================================== *)
(** ** Configuration and the outside world *)
(* ===================================================================== *)

Definition BASE : string := "https://api.ordoro.com".

(** A Python [float]: what [float(os.getenv(...))] can return.  A finite
    double is a rational; ["inf"], ["-inf"] and ["nan"] parse as well. *)
Inductive pyfloat : Type :=
| Finite (q : Q)
| Infinite (negative : bool)
| NotANumber.

(** The two float operations of the script, both of which can raise:
    [x ** n] for an [int] exponent and [time.sleep(x)]. *)
Class Floats : Type := {
  float_pow : pyfloat -> Z -> result pyfloat;
  time_sleep : pyfloat -> result unit
}.

(** Settings read from the environment, lines 31-33. *)
Record Config : Type := {
  PAGE_LIMIT : Z;
  MAX_RETRIES : Z;
  BACKOFF_BASE : pyfloat
}.

Definition ENABLE_HISTORY : bool := false.
Definition FILTER_ARCHIVED : bool := false.

Record Request : Type := {
  url : string;
  params : list (string * Z)
}.

Record Response : Type := {
  status_code : Z;
  location : option string;     (* the Location header, if any *)
  body : option json            (* None: the body is not JSON *)
}.

(** What one [requests.get] call comes back with. *)
Inductive get_outcome : Type :=
| Responds (r : Response)
| Fails (what : string).

(** The network answers the [n]-th GET of the run. *)
Definition network : Type := nat -> Request -> get_outcome.

(** Observable trace of a run, oldest event first. *)
Inductive event : Type :=
| Get (rq : Request)
| Sleep (exponent : Z)            (* time.sleep(BACKOFF_BASE ** exponent) has returned *)
| Yielded (batch : list json).    (* the generator hands a batch to its consumer *)

Record world : Type := {
  gets : nat;
  log : list event
}.

Definition world0 : world := {| gets := 0; log := [] |}.

Definition emit (e : event) (w : world) : world :=
  {| gets := gets w; log := log w ++ [e] |}.

Definition requests_get (net : network) (rq : Request) (w : world)
  : world * get_outcome :=
  ({| gets := S (gets w); log := log w ++ [Get rq] |}, net (gets w) rq).

(* ===================================================================== *)
(** ** [_request_with_retry] *)
(* ===================================================================== *)

(** [Response.is_redirect]: a Location header and a redirect status. *)
Definition is_redirect (r : Response) : bool :=
  match location r with
  | Some _ => existsb (Z.eqb (status_code r)) [301; 302; 303; 307; 308]
  | None => false
  end.

(** [Response.raise_for_status]: 4xx and 5xx raise [HTTPError]. *)
Definition raise_for_status (r : Response) : result unit :=
  if (400 <=? status_code r) && (status_code r <? 600)
  then Raise (RequestException (StatusError (status_code r)))
  else Ok tt.

Definition retryable_status (s : Z) : bool :=
  existsb (Z.eqb s) [429; 500; 502; 503; 504].

Section Fetch.

Context {fl : Floats}.
Variable cfg : Config.
Variable net : network.

(** Line 97, [time.sleep(BACKOFF_BASE ** attempt)]: the power is computed
    first, then slept; either step may raise. *)
Definition backoff (attempt : Z) : result unit :=
  secs <- float_pow (BACKOFF_BASE cfg) attempt ;; time_sleep secs.

(** The body of the [try] block, lines 82-93. *)
Definition attempt_once (u : string) (ps : list (string * Z)) (w : world)
  : world * result Response :=
  let (w1, o1) := requests_get net {| url := u; params := ps |} w in
  match o1 with
  | Fails what => (w1, Raise (RequestException (TransportFailure what)))
  | Responds r =>
      let (w2, o2) :=
        if is_redirect r then
          match location r with
          | Some loc =>
              if negb (String.eqb loc "") && String.prefix "http://" loc then
                let loc' := ("https://" ++ String.substring 7 (String.length loc - 7) loc)%string in
                requests_get net {| url := loc'; params := [] |} w1
              else (w1, Responds r)
          | None => (w1, Responds r)
          end
        else (w1, Responds r) in
      match o2 with
      | Fails what => (w2, Raise (RequestException (TransportFailure what)))
      | Responds r' =>
          if retryable_status (status_code r')
          then (w2, Raise (RequestException (RetryableStatus (status_code r'))))
          else (w2, _ <- raise_for_status r' ;; Ok r')
      end
  end.

(** The [while True] loop, one unit of fuel per iteration; [None] when the
    fuel is spent.  An exception raised by the back-off leaves the [except]
    clause in place of the failure being handled. *)
Fixpoint retry_loop (fuel : nat) (u : string) (ps : list (string * Z))
         (attempt : Z) (w : world) : option (world * result Response) :=
  match fuel with
  | O => None
  | S fuel' =>
      match attempt_once u ps w with
      | (w1, Ok r) => Some (w1, Ok r)
      | (w1, Raise (RequestException e)) =>
          let attempt := attempt + 1 in
          if attempt >? MAX_RETRIES cfg
          then Some (w1, Raise (RequestException e))
          else
            match backoff attempt with
            | Raise e' => Some (w1, Raise e')
            | Ok _ => retry_loop fuel' u ps attempt (emit (Sleep attempt) w1)
            end
      | (w1, Raise e) => Some (w1, Raise e)
      end
  end.

(** No run of the loop takes more than [MAX_RETRIES + 1] iterations. *)
Definition retry_fuel : nat := S (Z.to_nat (MAX_RETRIES cfg)).

Definition _request_with_retry (u : string) (ps : list (string * Z)) (w : world)
  : option (world * result Response) :=
  retry_loop retry_fuel u ps 0 w.

End Fetch.

(* ===================================================================== *)
(** ** [iter_products_batches] *)
(* ===================================================================== *)

Record cursor : Type := {
  offset : Z;
  last_first_id : json;
  use_page_mode : bool;
  page : Z
}.

Definition cursor0 : cursor :=
  {| offset := 0; last_first_id := JNull; use_page_mode := false; page := 1 |}.

(** Lines 115-125: the batch inside the decoded payload. *)
Fixpoint first_list_under (keys : list string) (d : list (string * json))
  : list json :=
  match keys with
  | [] => []
  | key :: keys' =>
      match Py.assoc key d with
      | Some (JList l) => l
      | _ => first_list_under keys' d
      end
  end.

Definition extract_batch (data : json) : list json :=
  match data with
  | JDict d =>
      let batch := first_list_under ["product"; "products"; "results"; "data"; "items"] d in
      if negb (Py.truthy (JList batch)) && Py.truthy data then [data] else batch
  | JList l => l
  | _ => []
  end.

(** [(b0 or {}).get("id")] *)
Definition first_id_of (b0 : json) : result json :=
  match Py.or_ b0 (JDict []) with
  | JDict d => Ok (Py.get d "id")
  | _ => Raise AttributeError
  end.

(** How one pass through the body of the [while True] loop ends. *)
Inductive iter_out : Type :=
| Stop                                          (* break on an empty batch *)
| Switch (st : cursor)                          (* continue: stall detected *)
| Yield (batch : list json) (next : option cursor)  (* None: break after the final batch *)
| Raised (e : exn).

Section Cursor.

Context {fl : Floats}.
Variable cfg : Config.
Variable net : network.
Variable limit_each : Z.

Definition request_params (st : cursor) : list (string * Z) :=
  [("limit", limit_each);
   (if use_page_mode st then "page" else "offset",
    if use_page_mode st then page st else offset st)].

(** Lines 127-147: what the loop does with the batch it has fetched, up to
    and including the bookkeeping after [yield]. *)
Definition handle_batch (st : cursor) (w1 : world) (batch : list json)
  : world * iter_out :=
  match batch with
  | [] => (w1, Stop)
  | b0 :: _ =>
      match first_id_of b0 with
      | Raise e => (w1, Raised e)
      | Ok first_id =>
          if negb (use_page_mode st)
             && negb (Py.is_none (last_first_id st))
             && Py.eqb first_id (last_first_id st)
          then
            if limit_each =? 0 then (w1, Raised ZeroDivisionError)
            else (w1, Switch {| offset := offset st;
                                last_first_id := last_first_id st;
                                use_page_mode := true;
                                page := offset st / limit_each + 2 |})
          else
            let w2 := emit (Yielded batch) w1 in
            if Z.of_nat (List.length batch) <? limit_each
            then (w2, Yield batch None)
            else if use_page_mode st
            then (w2, Yield batch
                        (Some {| offset := offset st;
                                 last_first_id := last_first_id st;
                                 use_page_mode := true;
                                 page := page st + 1 |}))
            else (w2, Yield batch
                        (Some {| offset := offset st + Z.of_nat (List.length batch);
                                 last_first_id := first_id;
                                 use_page_mode := false;
                                 page := page st |}))
      end
  end.

(** Lines 112-125 followed by [handle_batch]: one pass through the body of
    the [while True] loop. *)
Definition iter_body (st : cursor) (w : world) : option (world * iter_out) :=
  match _request_with_retry cfg net (BASE ++ "/product/")%string (request_params st) w with
  | None => None
  | Some (w1, Raise e) => Some (w1, Raised e)
  | Some (w1, Ok r) =>
      match body r with
      | None => Some (w1, Raised JSONDecodeError)
      | Some data => Some (handle_batch st w1 (extract_batch data))
      end
  end.

(** The generator run to its end: [Ok tt] when it is exhausted, the
    exception when it dies; [None] when [fuel] loop iterations were not
    enough. *)
Fixpoint iter_loop (fuel : nat) (st : cursor) (w : world)
  : option (world * result unit) :=
  match fuel with
  | O => None
  | S fuel' =>
      match iter_body st w with
      | None => None
      | Some (w1, Stop) => Some (w1, Ok tt)
      | Some (w1, Raised e) => Some (w1, Raise e)
      | Some (w1, Switch st') => iter_loop fuel' st' w1
      | Some (w1, Yield _ None) => Some (w1, Ok tt)
      | Some (w1, Yield _ (Some st')) => iter_loop fuel' st' w1
      end
  end.

Definition iter_products_batches (fuel : nat) : option (world * result unit) :=
  iter_loop fuel cursor0 world0.

End Cursor.

(* ===================================================================== *)
(** ** Text cleaning and field mapping *)
(* ===================================================================== *)

(** U+FF1A FULLWIDTH COLON, as its three UTF-8 bytes. *)
Definition fullwidth_colon : string :=
  String (ascii_of_nat 239) (String (ascii_of_nat 188) (String (ascii_of_nat 154) "")).

(** [a or b or ... or z]: the first truthy operand, else the last one. *)
Fixpoint or_chain (vals : list json) : json :=
  match vals with
  | [] => JNull
  | [v] => v
  | v :: vs => if Py.truthy v then v else or_chain vs
  end.

Definition row : Type := list (string * json).

Section Text.

(** Python's [repr] of floats, lists and dicts. *)
Variable repr : json -> string.

Definition _safe_str (x : json) : string :=
  let s := if Py.is_none x then "" else Py.str repr x in
  Py.replace ":" fullwidth_colon (Py.replace "|" "/" s).

Definition tag_label (t : list (string * json)) : json :=
  or_chain [Py.get t "name"; Py.get t "label"; Py.get t "tag";
            Py.get t "value"; Py.get t "title"].

(** What one element of a list of tags contributes, lines 158-162. *)
Definition tag_text (t : json) : string :=
  match t with
  | JStr _ => _safe_str t
  | JDict d =>
      let v := tag_label d in
      _safe_str (match v with JStr _ => v | _ => t end)
  | _ => _safe_str t
  end.

Definition _join_tags (tags_obj : json) : string :=
  let out :=
    match tags_obj with
    | JList l => map tag_text l
    | JDict d =>
        let v := tag_label d in
        if Py.truthy v then [_safe_str v] else []
    | JStr _ => [_safe_str tags_obj]
    | _ => []
    end in
  Py.join "|" out.

Definition cart_vendor (c : list (string * json)) : json :=
  or_chain [Py.get c "vendor"; Py.get c "channel"; Py.get c "platform";
            Py.get c "site"; JStr ""].

Definition cart_name (c : list (string * json)) : json :=
  or_chain [Py.get c "name"; Py.get c "store"; Py.get c "account"; JStr ""].

Definition vendor_name (vendor name : json) : string :=
  Py.strip ":" (_safe_str vendor ++ ":" ++ _safe_str name)%string.

(** What one element of a list of carts contributes, lines 173-177. *)
Definition cart_text (c : json) : string :=
  match c with
  | JDict d => vendor_name (cart_vendor d) (cart_name d)
  | _ => _safe_str c
  end.

(** In the single-mapping branch (lines 178-181) every fallback is read off
    [c], the loop variable of the list branch, which is unbound there: the
    [or] chain only survives when its first operand is truthy. *)
Definition _join_carts (carts_obj : json) : result string :=
  out <- match carts_obj with
         | JList l => Ok (map cart_text l)
         | JDict d =>
             vendor <- (if Py.truthy (Py.get d "vendor") then Ok (Py.get d "vendor")
                        else Raise UnboundLocalError) ;;
             name <- (if Py.truthy (Py.get d "name") then Ok (Py.get d "name")
                      else Raise UnboundLocalError) ;;
             Ok [vendor_name vendor name]
         | JStr _ => Ok [_safe_str carts_obj]
         | _ => Ok []
         end ;;
  Ok (Py.join "|" out).

Definition _is_archived_like (p : list (string * json)) : bool :=
  Py.truthy (or_chain [Py.get p "archived"; Py.get p "is_archived";
                       Py.get p "deleted"; Py.get p "is_deleted"]).

Definition base_product_cols (p : list (string * json)) : result (option row) :=
  if FILTER_ARCHIVED && _is_archived_like p then Ok None
  else
    let tags := _join_tags (Py.get p "tags") in
    carts <- _join_carts (Py.or_ (Py.get p "carts") (JList [])) ;;
    Ok (Some [("PRODUCT_ID", Py.get p "id");
              ("SKU", Py.get p "sku");
              ("NAME", Py.get p "name");
              ("PRICE", Py.get p "price");
              ("COST", Py.get p "cost");
              ("UPC", Py.get p "upc");
              ("ASIN", Py.get p "asin");
              ("COUNTRY", Py.get p "country_of_origin");
              ("UPDATED", Py.get p "updated");
              ("TOTAL_ON_HAND", Py.get p "total_on_hand");
              ("TOTAL_AVAILABLE", Py.get p "total_available");
              ("TOTAL_COMMITTED", Py.get p "total_committed");
              ("TOTAL_ALLOCATED", Py.get p "total_allocated");
              ("TOTAL_UNALLOCATED", Py.get p "total_unallocated");
              ("TOTAL_MFG_ORDERED", Py.get p "total_mfg_ordered");
              ("TO_BE_SHIPPED", Py.get p "to_be_shipped");
              ("HEIGHT", Py.get p "height");
              ("WEIGHT", Py.get p "weight");
              ("WIDTH", Py.get p "width");
              ("TAGS", JStr tags);
              ("CARTS", JStr carts)]).

(** [for w in x]: lists give their elements, dicts their keys, strings
    their characters (byte-wise here; none of them is a dict, which is all
    that line 219 asks); other values are not iterable. *)
Definition py_iter (x : json) : result (list json) :=
  match x with
  | JList l => Ok l
  | JDict d => Ok (map (fun kv => JStr (fst kv)) d)
  | JStr s => Ok (map (fun a => JStr (String a "")) (list_ascii_of_string s))
  | _ => Raise TypeError
  end.

Definition warehouse_cols (w : list (string * json)) : row :=
  [("WH_ID", Py.get w "id"); ("WH_NAME", Py.get w "warehouse_name");
   ("WH_UPDATED", Py.get w "updated"); ("WH_CREATED", Py.get w "warehouse_created_date");
   ("WH_LAST_CHANGE", Py.get w "warehouse_updated_date");
   ("LOW_STOCK_THTD", Py.get w "low_stock_threshold");
   ("OOS_THTD", Py.get w "out_of_stock_threshold");
   ("POH", Py.get w "physical_on_hand"); ("AOH", Py.get w "available");
   ("CMT", Py.get w "committed"); ("OMO", Py.get w "mfg_ordered");
   ("OPO", Py.get w "po_committed");
   ("ON_HAND", Py.get w "on_hand"); ("ALLOCATED", Py.get w "allocated");
   ("UNALLOCATED", Py.get w "unallocated");
   ("WH_SHIP_CFG", Py.get w "is_configured_for_shipping");
   ("WH_IS_DEFAULT", Py.get w "is_default_location");
   ("LOCATION", Py.get w "location_in_warehouse")].

Definition rows_for_warehouses (p : list (string * json)) : result (list row) :=
  base <- base_product_cols p ;;
  match base with
  | None => Ok []
  | Some base =>
      ws <- py_iter (Py.or_ (Py.get p "warehouses") (JList [])) ;;
      Ok (flat_map (fun w => match w with
                             | JDict wd => [base ++ warehouse_cols wd]
                             | _ => []
                             end) ws)
  end.

End Text.

(* ===================================================================== *)
(** ** The cleaning stage *)
(* ===================================================================== *)

Definition PRODUCT_TARGET_COLS : list string :=
  ["PRODUCT_ID"; "SKU"; "NAME"; "PRICE"; "COST"; "UPC"; "ASIN"; "COUNTRY"; "UPDATED";
   "TOTAL_ON_HAND"; "TOTAL_AVAILABLE"; "TOTAL_COMMITTED"; "TOTAL_ALLOCATED";
   "TOTAL_UNALLOCATED"; "TOTAL_MFG_ORDERED"; "TO_BE_SHIPPED"; "HEIGHT"; "WEIGHT"; "WIDTH";
   "TAGS"; "CARTS"].

Definition WAREHOUSE_TARGET_COLS : list string :=
  ["PRODUCT_ID"; "SKU"; "NAME"; "PRICE"; "COST"; "UPC"; "ASIN"; "COUNTRY"; "UPDATED";
   "TOTAL_ON_HAND"; "TOTAL_AVAILABLE"; "TOTAL_COMMITTED"; "TOTAL_ALLOCATED";
   "TOTAL_UNALLOCATED"; "TOTAL_MFG_ORDERED"; "TO_BE_SHIPPED"; "HEIGHT"; "WEIGHT"; "WIDTH";
   "TAGS"; "CARTS";
   "WH_ID"; "WH_NAME"; "WH_UPDATED"; "WH_CREATED"; "WH_LAST_CHANGE";
   "LOW_STOCK_THTD"; "OOS_THTD"; "POH"; "AOH"; "CMT"; "OMO"; "OPO"; "ON_HAND";
   "ALLOCATED"; "UNALLOCATED";
   "WH_SHIP_CFG"; "WH_IS_DEFAULT"; "LOCATION"].

Definition PRODUCT_QTY_COLS : list string :=
  ["TOTAL_ON_HAND"; "TOTAL_AVAILABLE"; "TOTAL_COMMITTED"; "TOTAL_ALLOCATED";
   "TOTAL_UNALLOCATED"; "TOTAL_MFG_ORDERED"; "TO_BE_SHIPPED"].

Definition WAREHOUSE_QTY_COLS : list string :=
  ["LOW_STOCK_THTD"; "OOS_THTD"; "POH"; "AOH"; "CMT"; "OMO"; "OPO"; "ON_HAND";
   "ALLOCATED"; "UNALLOCATED"].

(** A cell of a DataFrame, [X] being the float64 values other than NaN. *)
Inductive cell (X : Type) : Type :=
| Obj (v : json)          (* a Python object, [Obj JNull] being None *)
| NaN                     (* the missing float *)
| Float (x : X)
| Int64 (z : Z)
| NA                      (* pd.NA of the nullable dtypes *)
| Timestamp (ns : Z)
| NaT
| Boolean (b : bool).

Arguments Obj {X} v.
Arguments NaN {X}.
Arguments Float {X} x.
Arguments Int64 {X} z.
Arguments NA {X}.
Arguments Timestamp {X} ns.
Arguments NaT {X}.
Arguments Boolean {X} b.

(** pandas is not part of the script.  What the script asks of it is kept
    abstract.  Columns are converted cell by cell; the dtype under which a
    column of Python objects is stored is not modelled. *)
Record Pandas : Type := {
  float64 : Type;
  (* pd.to_numeric(..., errors="coerce") on one Python object; None is NaN *)
  numeric_of : json -> option float64;
  (* the float that fillna(0) puts in *)
  zero : float64;
  (* round(ndigits) on a float *)
  round_to : Z -> float64 -> float64;
  (* the cast of astype("Int64"); None when the float cannot be cast safely
     and pandas raises *)
  as_int64 : float64 -> option Z;
  (* pd.to_datetime(..., errors="coerce"), the .dt time-zone accessors and
     astype("boolean"), column by column; each may raise *)
  to_datetime : list (cell float64) -> result (list (cell float64));
  dt_tz_convert_utc : list (cell float64) -> result (list (cell float64));
  dt_tz_localize_none : list (cell float64) -> result (list (cell float64));
  astype_boolean : list (cell float64) -> result (list (cell float64))
}.

(** A conversion applied along a column; the first cell that raises ends it. *)
Fixpoint mapM {A B} (f : A -> result B) (l : list A) : result (list B) :=
  match l with
  | [] => Ok []
  | a :: l' => b <- f a ;; l'' <- mapM f l' ;; Ok (b :: l'')
  end.

(** [pd.isna] *)
Definition is_null {X} (c : cell X) : bool :=
  match c with
  | Obj JNull | NaN | NA | NaT => true
  | _ => false
  end.

Section Frames.

Variable X : Type.

Record DataFrame : Type := {
  index_len : nat;                       (* number of rows *)
  cols : list (string * list (cell X))       (* the columns, left to right *)
}.

Definition columns (df : DataFrame) : list string := map fst (cols df).

(** [df.empty]: some axis has length 0. *)
Definition empty (df : DataFrame) : bool :=
  (index_len df =? 0)%nat || (List.length (cols df) =? 0)%nat.

(** [df[c]] *)
Definition getcol (c : string) (df : DataFrame) : option (list (cell X)) :=
  Py.assoc c (cols df).

Fixpoint set_assoc {A} (k : string) (v : A) (d : list (string * A)) : list (string * A) :=
  match d with
  | [] => [(k, v)]
  | (k', v') :: d' => if String.eqb k k' then (k, v) :: d' else (k', v') :: set_assoc k v d'
  end.

(** [df[c] = col] *)
Definition setcol (c : string) (col : list (cell X)) (df : DataFrame) : DataFrame :=
  {| index_len := index_len df; cols := set_assoc c col (cols df) |}.

(** [df.reindex(columns=target)]: the columns named, in that order; a
    column the frame lacks is filled with NaN. *)
Definition reindex (target : list string) (df : DataFrame) : DataFrame :=
  {| index_len := index_len df;
     cols := map (fun c => (c, match getcol c df with
                               | Some col => col
                               | None => repeat NaN (index_len df)
                               end)) target |}.

(** Every column is as long as the index. *)
Definition well_formed (df : DataFrame) : Prop :=
  Forall (fun kv => List.length (snd kv) = index_len df) (cols df).

(** [pd.DataFrame(rows)] for a list of dicts: the keys in order of first
    appearance, a missing key giving NaN. *)
Definition add_key (acc : list string) (kv : string * json) : list string :=
  if existsb (String.eqb (fst kv)) acc then acc else acc ++ [fst kv].

Definition keys_of (rows : list row) : list string :=
  fold_left (fun acc r => fold_left add_key r acc) rows [].

Definition DataFrame_of (rows : list row) : DataFrame :=
  {| index_len := List.length rows;
     cols := map (fun c => (c, map (fun r => match Py.assoc c r with
                                             | Some v => Obj v
                                             | None => NaN
                                             end) rows))
                 (keys_of rows) |}.

End Frames.

Arguments index_len {X} d.
Arguments cols {X} d.
Arguments columns {X} df.
Arguments empty {X} df.
Arguments getcol {X} c df.
Arguments setcol {X} c col df.
Arguments reindex {X} target df.
Arguments well_formed {X} df.
Arguments DataFrame_of {X} rows.

Section Cleaning.

Variable pd : Pandas.

Let series : Type := list (cell (float64 pd)).
Let frame : Type := DataFrame (float64 pd).

(** Series methods.  They convert the Python objects of a column; a cell
    that is typed already is left as it is. *)
Definition to_numeric (s : series) : series :=
  map (fun c => match c with
                | Obj v => match numeric_of pd v with Some x => Float x | None => NaN end
                | _ => c
                end) s.

Definition fillna_0 (s : series) : series :=
  map (fun c => match c with
                | NaN => Float (zero pd)
                | NA => Int64 0
                | Obj JNull => Obj (JInt 0)
                | _ => c
                end) s.

Definition round (ndigits : Z) (s : series) : series :=
  map (fun c => match c with Float x => Float (round_to pd ndigits x) | _ => c end) s.

Definition cell_Int64 (c : cell (float64 pd)) : result (cell (float64 pd)) :=
  match c with
  | Float x => match as_int64 pd x with Some z => Ok (Int64 z) | None => Raise PandasError end
  | Int64 z => Ok (Int64 z)
  | Boolean b => Ok (Int64 (Z.b2z b))
  | NaN | NA => Ok NA
  | Obj _ | Timestamp _ | NaT => Raise PandasError
  end.

Definition astype_Int64 (s : series) : result series := mapM cell_Int64 s.

(** Lines 251-255. *)
Definition _strip_tz (s0 : series) : series :=
  match (s <- dt_tz_convert_utc pd s0 ;; dt_tz_localize_none pd s) with
  | Ok s => s
  | Raise _ =>
      match dt_tz_localize_none pd s0 with
      | Ok s => s
      | Raise _ => s0
      end
  end.

(** [if c in df.columns: df[c] = f(df[c])] *)
Definition when_present (f : series -> result series) (c : string)
           (df : frame) : result frame :=
  match getcol c df with
  | Some col => col' <- f col ;; Ok (setcol c col' df)
  | None => Ok df
  end.

(** [for c in cs: if c in df.columns: df[c] = f(df[c])] *)
Fixpoint for_each (cs : list string) (f : series -> result series)
         (df : frame) : result frame :=
  match cs with
  | [] => Ok df
  | c :: cs' => df' <- when_present f c df ;; for_each cs' f df'
  end.

Definition datetime_rule (s : series) : result series :=
  s' <- to_datetime pd s ;; Ok (_strip_tz s').

Definition money_rule (s : series) : result series :=
  Ok (round 2 (to_numeric s)).

Definition quantity_rule (s : series) : result series :=
  astype_Int64 (round 0 (fillna_0 (to_numeric s))).

Definition numeric_rule (s : series) : result series :=
  Ok (to_numeric s).

Definition clean_products_df (df : frame) : result frame :=
  if empty df then Ok (reindex PRODUCT_TARGET_COLS df)
  else
    df <- when_present datetime_rule "UPDATED" df ;;
    df <- for_each ["PRICE"; "COST"] money_rule df ;;
    df <- for_each PRODUCT_QTY_COLS quantity_rule df ;;
    df <- for_each ["HEIGHT"; "WEIGHT"; "WIDTH"; "PRODUCT_ID"] numeric_rule df ;;
    Ok (reindex PRODUCT_TARGET_COLS df).

Definition clean_wh_df (df : frame) : result frame :=
  if empty df then Ok (reindex WAREHOUSE_TARGET_COLS df)
  else
    df <- for_each ["UPDATED"; "WH_UPDATED"; "WH_CREATED"; "WH_LAST_CHANGE"]
                   datetime_rule df ;;
    df <- for_each ["PRICE"; "COST"] money_rule df ;;
    df <- for_each (WAREHOUSE_QTY_COLS ++ ["PRODUCT_ID"; "WH_ID"]) quantity_rule df ;;
    df <- for_each ["HEIGHT"; "WEIGHT"; "WIDTH"] numeric_rule df ;;
    df <- for_each ["WH_SHIP_CFG"; "WH_IS_DEFAULT"] (astype_boolean pd) df ;;
    Ok (reindex WAREHOUSE_TARGET_COLS df).

End Cleaning.

(* ===================================================================== *)
(** ** The loop of [main] *)
(* ===================================================================== *)

Definition TABLE_PRODUCTS_SNAP : string := "INVENTORY_PRODUCT_LEVEL_SNAP".
Definition TABLE_WAREHOUSES_SNAP : string := "INVENTORY_WAREHOUSE_LEVEL_SNAP".

(** The composite key of line 344: product id, warehouse id and the text of
    the warehouse's updated-stamp. *)
Definition wh_key : Type := (json * json * string)%type.

(** Equality of such tuples: component by component. *)
Definition key_eqb (k k' : wh_key) : bool :=
  let '(p, w, u) := k in
  let '(p', w', u') := k' in
  Py.eqb p p' && Py.eqb w w' && String.eqb u u'.

Definition key_hashable (k : wh_key) : bool :=
  let '(p, w, _) := k in Py.hashable p && Py.hashable w.

(** [x in s] for a set [s], kept in insertion order: the element is hashed
    first, which an unhashable one answers with a TypeError. *)
Definition pid_in (x : json) (s : list json) : result bool :=
  if Py.hashable x then Ok (existsb (Py.eqb x) s) else Raise TypeError.

Definition key_in (k : wh_key) (s : list wh_key) : result bool :=
  if key_hashable k then Ok (existsb (key_eqb k) s) else Raise TypeError.

(** The variables of lines 328 and 334. *)
Record loop_state : Type := {
  seen_pid : list json;
  seen_wh : list wh_key;
  prod_rows : list row;
  wh_rows : list row
}.

Section MainLoop.

Variable repr : json -> string.

Definition key_of (r : row) : wh_key :=
  (Py.get r "PRODUCT_ID", Py.get r "WH_ID", Py.str repr (Py.get r "WH_UPDATED")).

(** Lines 344-346, for one warehouse row. *)
Definition admit_warehouse (st : loop_state) (r : row) : result loop_state :=
  let key := key_of r in
  seen <- key_in key (seen_wh st) ;;
  if negb seen
  then Ok {| seen_pid := seen_pid st;
             seen_wh := seen_wh st ++ [key];
             prod_rows := prod_rows st;
             wh_rows := wh_rows st ++ [r] |}
  else Ok st.

Fixpoint admit_warehouses (st : loop_state) (rs : list row) : result loop_state :=
  match rs with
  | [] => Ok st
  | r :: rs' => st' <- admit_warehouse st r ;; admit_warehouses st' rs'
  end.

(** Lines 339-342. *)
Definition admit_product (st : loop_state) (pid : json) (p : list (string * json))
  : result loop_state :=
  seen <- pid_in pid (seen_pid st) ;;
  if negb seen
  then
    r <- base_product_cols repr p ;;
    match r with
    | Some r => Ok {| seen_pid := seen_pid st ++ [pid];
                      seen_wh := seen_wh st;
                      prod_rows := prod_rows st ++ [r];
                      wh_rows := wh_rows st |}
    | None => Ok st
    end
  else Ok st.

(** Lines 336-346: the body of [for p in batch]. *)
Definition process_record (st : loop_state) (p : json) : result loop_state :=
  match p with
  | JDict d =>
      let pid := Py.get d "id" in
      if Py.is_none pid then Ok st
      else
        st1 <- admit_product st pid d ;;
        rs <- rows_for_warehouses repr d ;;
        admit_warehouses st1 rs
  | _ => Raise AttributeError
  end.

Fixpoint process_records (st : loop_state) (batch : list json) : result loop_state :=
  match batch with
  | [] => Ok st
  | p :: batch' => st' <- process_record st p ;; process_records st' batch'
  end.

(** Lines 334-346 for one batch: the row lists start empty, the identity
    sets are those of the run. *)
Definition process_batch (seen_p : list json) (seen_w : list wh_key)
           (batch : list json) : result loop_state :=
  process_records {| seen_pid := seen_p; seen_wh := seen_w;
                     prod_rows := []; wh_rows := [] |} batch.

(** Lines 328-346 over the batches of a run: the rows admitted batch by
    batch, and the identity sets at the end. *)
Fixpoint dedup_batches (seen_p : list json) (seen_w : list wh_key)
         (batches : list (list json))
  : result (list (list row * list row) * (list json * list wh_key)) :=
  match batches with
  | [] => Ok ([], (seen_p, seen_w))
  | b :: bs =>
      st <- process_batch seen_p seen_w b ;;
      rest <- dedup_batches (seen_pid st) (seen_wh st) bs ;;
      Ok ((prod_rows st, wh_rows st) :: fst rest, snd rest)
  end.

Definition dedup_run (batches : list (list json))
  : result (list (list row * list row) * (list json * list wh_key)) :=
  dedup_batches [] [] batches.

Section Writes.

Context {fl : Floats}.
Variable pd : Pandas.
Variable cfg : Config.
Variable net : network.

(** [_write_df(conn, df, table)], as the frame handed over. *)
Definition write : Type := (string * DataFrame (float64 pd))%type.

(** Lines 348-353. *)
Definition write_batch (st : loop_state) : result (list write) :=
  w1 <- (match prod_rows st with
         | [] => Ok []
         | _ :: _ =>
             df <- clean_products_df pd (DataFrame_of (prod_rows st)) ;;
             Ok [(TABLE_PRODUCTS_SNAP, df)]
         end) ;;
  w2 <- (match wh_rows st with
         | [] => Ok []
         | _ :: _ =>
             df <- clean_wh_df pd (DataFrame_of (wh_rows st)) ;;
             Ok [(TABLE_WAREHOUSES_SNAP, df)]
         end) ;;
  Ok (w1 ++ w2).

(** Lines 328-353 driven by the generator, lines 111-147: the loop of
    [main] asks for the next batch, de-duplicates it, cleans and writes it,
    and only then lets the generator go on.  Connecting, truncating the
    snapshot tables before the loop and closing the connection after it
    happen outside; what is kept is the trace of the requests and the
    frames handed to [_write_df], up to the end of the loop or the
    exception that ends it. *)
Fixpoint main_loop (fuel : nat) (st : cursor) (seen_p : list json)
         (seen_w : list wh_key) (w : world) (written : list write)
  : option (world * list write * result unit) :=
  match fuel with
  | O => None
  | S fuel' =>
      match iter_body cfg net (PAGE_LIMIT cfg) st w with
      | None => None
      | Some (w1, Stop) => Some (w1, written, Ok tt)
      | Some (w1, Raised e) => Some (w1, written, Raise e)
      | Some (w1, Switch st') => main_loop fuel' st' seen_p seen_w w1 written
      | Some (w1, Yield batch next) =>
          match (ls <- process_batch seen_p seen_w batch ;;
                 ws <- write_batch ls ;; Ok (ls, ws)) with
          | Raise e => Some (w1, written, Raise e)
          | Ok (ls, ws) =>
              match next with
              | None => Some (w1, written ++ ws, Ok tt)
              | Some st' =>
                  main_loop fuel' st' (seen_pid ls) (seen_wh ls) w1 (written ++ ws)
              end
          end
      end
  end.

Definition main (fuel : nat) : option (world * list write * result unit) :=
  main_loop fuel cursor0 [] [] world0 [].

End Writes.

End MainLoop.

(* ##################################################################### *)
(** * Part II. Vocabulary of the statements

    Projections of traces, synthetic sources, the shapes of the expected
    results, and the sample data the examples run on. *)
(* ##################################################################### *)

(* ===================================================================== *)
(** ** Traces and sources *)
(* ===================================================================== *)

(** Projections of a trace. *)
Definition yielded_batches (l : list event) : list (list json) :=
  flat_map (fun e => match e with Yielded b => [b] | _ => [] end) l.

Definition requests_made (l : list event) : list Request :=
  flat_map (fun e => match e with Get rq => [rq] | _ => [] end) l.

Definition sleeps_taken (l : list event) : list Z :=
  flat_map (fun e => match e with Sleep k => [k] | _ => [] end) l.

Definition ok_json (data : json) : get_outcome :=
  Responds {| status_code := 200; location := None; body := Some data |}.

Definition status_only (s : Z) : get_outcome :=
  Responds {| status_code := s; location := None; body := None |}.

(** [recs[start : start + n]] for a non-negative [start]. *)
Definition slice {A} (start n : Z) (recs : list A) : list A :=
  firstn (Z.to_nat n) (skipn (Z.to_nat start) recs).

(** The records a request asks for: [limit] records from [offset], or the
    [page]-th run of [limit] records (pages count from 1). *)
Definition serve (recs : list json) (ps : list (string * Z)) : list json :=
  match Py.assoc "limit" ps with
  | None => []
  | Some limit =>
      match Py.assoc "offset" ps, Py.assoc "page" ps with
      | Some off, _ => slice off limit recs
      | None, Some p => slice ((p - 1) * limit) limit recs
      | None, None => []
      end
  end.

(** A finite source holding [recs], answering with a bare JSON list. *)
Definition finite_source (recs : list json) : network :=
  fun _ rq => ok_json (JList (serve recs (params rq))).

(** The same source answering with the records under the key [product] of
    a mapping, as the envelope of line 117 expects. *)
Definition envelope (batch : list json) : json :=
  JDict [("product", JList batch)].

Definition enveloped_source (recs : list json) : network :=
  fun _ rq => ok_json (envelope (serve recs (params rq))).

(** A source whose offset parameter has stopped working: every offset
    request is answered with the first page; page requests are served
    properly. *)
Definition stalled_source (recs : list json) : network :=
  fun _ rq =>
    match Py.assoc "offset" (params rq) with
    | Some _ => ok_json (JList (serve recs [("limit", match Py.assoc "limit" (params rq) with
                                                       | Some l => l | None => 0 end);
                                            ("offset", 0)]))
    | None => ok_json (JList (serve recs (params rq)))
    end.

Definition product (id : Z) : json := JDict [("id", JInt id)].

(* ===================================================================== *)
(** ** Retries *)
(* ===================================================================== *)

(** [1; 2; ...; n] *)
Definition Zupto (n : nat) : list Z := map Z.of_nat (seq 1 n).

(** Outcomes of a GET that make the attempt end in a [RequestException]:
    a transport failure, or a 4xx/5xx status. *)
Definition failing (o : get_outcome) : bool :=
  match o with
  | Fails _ => true
  | Responds r => (400 <=? status_code r) && (status_code r <? 600)
  end.

(** The failures the script itself names as retryable. *)
Definition transient (o : get_outcome) : bool :=
  match o with
  | Fails _ => true
  | Responds r => retryable_status (status_code r)
  end.

(** A response handed back to the caller as it is. *)
Definition passes (r : Response) : bool :=
  negb (is_redirect r) && negb ((400 <=? status_code r) && (status_code r <? 600)).

Definition failure_of (o : get_outcome) : request_exception :=
  match o with
  | Fails what => TransportFailure what
  | Responds r =>
      if retryable_status (status_code r) then RetryableStatus (status_code r)
      else StatusError (status_code r)
  end.

Definition after_get (rq : Request) (w : world) : world :=
  {| gets := S (gets w); log := log w ++ [Get rq] |}.

(** The trace of [j] failed attempts, each followed by its back-off, the
    first of them being failure number [attempt + 1]. *)
Definition failed_attempts (rq : Request) (attempt : Z) (j : nat) : list event :=
  flat_map (fun k => [Get rq; Sleep (attempt + k)]) (Zupto j).

(** Where the world stands after [j] failed attempts and one more GET. *)
Definition world_after (u : string) (ps : list (string * Z)) (w : world) (j : nat)
  : world :=
  {| gets := S (gets w + j);
     log := log w ++ failed_attempts {| url := u; params := ps |} 0 j
                  ++ [Get {| url := u; params := ps |}] |}.

(** *** Floats as CPython computes them

    The result of [**] is kept exact where the C library rounds it to a
    double: the script only hands it to [time.sleep], so what matters is
    whether the power and the sleep raise.  [float.__pow__] raises
    [OverflowError] when the result is out of the range of a double (a
    magnitude of [2^1024 - 2^970] or more rounds to infinity) and
    [ZeroDivisionError] for [0.0] to a negative power.  [time.sleep] turns
    its argument into a 64-bit count of nanoseconds, rounding away from
    zero: NaN is a [ValueError], a count that does not fit is an
    [OverflowError], and a negative length is a [ValueError]. *)
Definition DBL_OVERFLOW : Q := inject_Z (2 ^ 1024 - 2 ^ 970).

Definition cpython_pow (x : pyfloat) (n : Z) : result pyfloat :=
  if n =? 0 then Ok (Finite 1)
  else
    match x with
    | NotANumber => Ok NotANumber
    | Infinite negative =>
        if n <? 0 then Ok (Finite 0) else Ok (Infinite (negative && Z.odd n))
    | Finite q =>
        if Qeq_bool q 0 && (n <? 0) then Raise ZeroDivisionError
        else
          let y := Qpower q n in
          if Qle_bool DBL_OVERFLOW (Qabs y) then Raise OverflowError
          else Ok (Finite y)
    end.

Definition nanoseconds (q : Q) : Z :=
  let ns := (q * inject_Z (10 ^ 9))%Q in
  if Qle_bool 0 ns then Qceiling ns else Qfloor ns.

Definition cpython_sleep (x : pyfloat) : result unit :=
  match x with
  | NotANumber => Raise ValueError
  | Infinite _ => Raise OverflowError
  | Finite q =>
      let ns := nanoseconds q in
      if (- 2 ^ 63 <=? ns) && (ns <? 2 ^ 63)
      then if ns <? 0 then Raise ValueError else Ok tt
      else Raise OverflowError
  end.

#[export] Instance cpython : Floats :=
  {| float_pow := cpython_pow; time_sleep := cpython_sleep |}.

(** The same with [time.sleep] patched out, as a test harness does. *)
Definition patched_sleep : Floats :=
  {| float_pow := cpython_pow; time_sleep := fun _ => Ok tt |}.

(** [float("1.4")], the default of line 33: the double nearest to 1.4. *)
Definition double_1_4 : Q := 6305039478318694 # 4503599627370496.

Definition default_backoff : pyfloat := Finite double_1_4.

Definition cfg5 : Config :=
  {| PAGE_LIMIT := 100; MAX_RETRIES := 5; BACKOFF_BASE := default_backoff |}.

(** [MAX_RETRIES=2200]: more retries than the back-off can grow for. *)
Definition patient_cfg : Config :=
  {| PAGE_LIMIT := 100; MAX_RETRIES := 2200; BACKOFF_BASE := default_backoff |}.

(** [BACKOFF_BASE=-1.4]: a base whose first power is no length of time. *)
Definition eager_cfg : Config :=
  {| PAGE_LIMIT := 100; MAX_RETRIES := 5;
     BACKOFF_BASE := Finite (- 6305039478318694 # 4503599627370496) |}.

(** Two 503s, then a 200. *)
Definition flaky_net : network :=
  fun n _ => if (n <? 2)%nat then status_only 503 else ok_json (JList []).

(* ===================================================================== *)
(** ** The states of the generator *)
(* ===================================================================== *)

Section Reachability.

Context {fl : Floats}.
Variable cfg : Config.
Variable net : network.
Variable limit_each : Z.

(** States the generator can be in at the top of its loop. *)
Inductive reaches : cursor -> world -> Prop :=
| reaches_start : reaches cursor0 world0
| reaches_switch st w w1 st' :
    reaches st w ->
    iter_body cfg net limit_each st w = Some (w1, Switch st') ->
    reaches st' w1
| reaches_yield st w w1 b st' :
    reaches st w ->
    iter_body cfg net limit_each st w = Some (w1, Yield b (Some st')) ->
    reaches st' w1.

End Reachability.

(** Records the generator can take the id of: a mapping has [.get], and a
    falsy record is replaced by [{}] before [.get] is called. *)
Definition is_mapping (v : json) : bool :=
  match v with JDict _ => true | _ => false end.

Definition id_can_be_read (b0 : json) : bool :=
  is_mapping b0 || negb (Py.truthy b0).

Definition offset_request (limit off : Z) : Request :=
  {| url := "https://api.ordoro.com/product/";
     params := [("limit", limit); ("offset", off)] |}.

Definition page_request (limit p : Z) : Request :=
  {| url := "https://api.ordoro.com/product/";
     params := [("limit", limit); ("page", p)] |}.

Definition request_of (limit_each : Z) (st : cursor) : Request :=
  {| url := (BASE ++ "/product/")%string; params := request_params limit_each st |}.

Definition offset_cursor (off : Z) (lfi : json) : cursor :=
  {| offset := off; last_first_id := lfi; use_page_mode := false; page := 1 |}.

(* ===================================================================== *)
(** ** Pages of a finite source *)
(* ===================================================================== *)

(** [l] cut into runs of [L] elements; the last run may be shorter. *)
Fixpoint chunks_aux {A} (fuel L : nat) (l : list A) : list (list A) :=
  match fuel with
  | O => []
  | S fuel' =>
      match l with
      | [] => []
      | _ :: _ => firstn L l :: chunks_aux fuel' L (skipn L l)
      end
  end.

Definition chunks {A} (L : nat) (l : list A) : list (list A) :=
  chunks_aux (List.length l) L l.

(** The stall test of line 132 never fires along [batches], [lfi] being the
    first id remembered so far, and every first record has a readable id. *)
Fixpoint heads_differ (lfi : json) (batches : list (list json)) : bool :=
  match batches with
  | [] => true
  | [] :: _ => true
  | (b0 :: _) :: rest =>
      match first_id_of b0 with
      | Ok fid =>
          (Py.is_none lfi || negb (Py.eqb fid lfi)) && heads_differ fid rest
      | Raise _ => false
      end
  end.

(** No two consecutive pages of [L] records begin with the same non-null
    id. *)
Definition no_stall_detected (L : nat) (recs : list json) : bool :=
  heads_differ JNull (chunks L recs).

(* ===================================================================== *)
(** ** Text *)
(* ===================================================================== *)

Definition repr_unused : json -> string := fun _ => "<repr>".



(* ===================================================================== *)
(** ** A small pandas to run the cleaning stage on *)
(* ===================================================================== *)

(** Floats as rationals; text parses when it is a decimal integer;
    rounding is to the nearest, ties to even; timestamps are integers
    already and carry no time zone. *)
Definition round_half_even (q : Q) : Z :=
  let f := Qfloor q in
  match Qcompare (q - inject_Z f) (1 # 2) with
  | Lt => f
  | Gt => f + 1
  | Eq => if Z.even f then f else f + 1
  end.

Definition decimal_round (ndigits : Z) (q : Q) : Q :=
  let scale := inject_Z (10 ^ ndigits) in
  (inject_Z (round_half_even (q * scale)) / scale)%Q.

Definition parse_decimal (s : string) : option Q :=
  match NilZero.int_of_string s with
  | Some i => Some (inject_Z (Z.of_int i))
  | None => None
  end.

Definition simple_numeric_of (v : json) : option Q :=
  match v with
  | JInt z => Some (inject_Z z)
  | JFloat q => Some q
  | JBool b => Some (inject_Z (Z.b2z b))
  | JStr s => parse_decimal s
  | _ => None
  end.

Definition simple_as_int64 (q : Q) : option Z :=
  let z := Qfloor q in
  if Qeq_bool q (inject_Z z) && (- 2 ^ 63 <=? z) && (z <? 2 ^ 63) then Some z else None.

Definition simple_boolean (c : cell Q) : result (cell Q) :=
  match c with
  | Obj (JBool b) => Ok (Boolean b)
  | Obj JNull => Ok NA
  | Boolean b => Ok (Boolean b)
  | NA | NaN => Ok NA
  | _ => Raise TypeError
  end.

Definition simple_datetime (c : cell Q) : cell Q :=
  match c with
  | Obj (JInt ns) => Timestamp ns
  | Obj _ => NaT
  | _ => c
  end.

Definition simple_pandas : Pandas :=
  {| float64 := Q;
     numeric_of := simple_numeric_of;
     zero := 0%Q;
     round_to := decimal_round;
     as_int64 := simple_as_int64;
     to_datetime := fun s => Ok (map simple_datetime s);
     dt_tz_convert_utc := fun _ => Raise TypeError;
     dt_tz_localize_none := fun s => Ok s;
     astype_boolean := mapM simple_boolean |}.

(** In the output every quantity column that the input has is made of
    integers; one that the input lacks is a column of NaN. *)
Definition quantity_columns_ok {X} (qty : list string) (df out : DataFrame X) : Prop :=
  forall c, In c qty ->
    match getcol c df with
    | Some col =>
        exists col', getcol c out = Some col'
                     /\ List.length col' = List.length col
                     /\ Forall (fun x => is_null x = false /\ exists z, x = Int64 z) col'
    | None => getcol c out = Some (repeat NaN (index_len df))
    end.

Definition two_products : DataFrame Q :=
  {| index_len := 2;
     cols := [("TOTAL_ON_HAND", [Obj (JStr "abc"); Obj (JStr "12")]);
              ("SKU", [Obj (JStr "A-1"); Obj JNull]);
              ("TO_BE_SHIPPED", [Obj JNull; Obj (JFloat (5 # 2))])] |}.

Definition one_warehouse_row : DataFrame Q :=
  {| index_len := 1;
     cols := [("PRODUCT_ID", [Obj (JInt 7)]); ("WH_ID", [Obj (JStr "abc")]);
              ("POH", [Obj (JStr "abc")]); ("AOH", [Obj (JStr "4")])] |}.

(** A product frame without any quantity column. *)
Definition sku_only : DataFrame Q :=
  {| index_len := 1; cols := [("SKU", [Obj (JStr "A-1")])] |}.

(** A warehouse row of a product whose [total_on_hand] is null. *)
Definition warehouse_row_with_null_total : DataFrame Q :=
  {| index_len := 1;
     cols := [("PRODUCT_ID", [Obj (JInt 7)]); ("TOTAL_ON_HAND", [Obj JNull]);
              ("WH_ID", [Obj (JInt 5)]); ("ON_HAND", [Obj (JInt 3)])] |}.

(** A warehouse row whose shipping flag is the string ["yes"]. *)
Definition warehouse_row_with_text_flag : DataFrame Q :=
  {| index_len := 1;
     cols := [("PRODUCT_ID", [Obj (JInt 7)]); ("WH_ID", [Obj (JInt 5)]);
              ("WH_SHIP_CFG", [Obj (JStr "yes")])] |}.

(* ===================================================================== *)
(** ** De-duplication *)
(* ===================================================================== *)

Definition widget_fields : list (string * json) :=
  [("id", JInt 7); ("sku", JStr "W-7"); ("total_on_hand", JStr "abc");
   ("tags", JList [JStr "a|b"; JStr "c"]);
   ("warehouses",
    JList [JDict [("id", JInt 5); ("updated", JStr "2024-01-01"); ("on_hand", JInt 3)];
           JDict [("id", JInt 5); ("updated", JStr "2024-01-01"); ("on_hand", JInt 4)];
           JDict [("id", JInt 5); ("updated", JStr "2024-02-01")];
           JStr "junk"])].

Definition widget : json := JDict widget_fields.










(** Every row the loop collects has the keys of its target table, in the
    order of the target columns. *)
Definition rows_shaped (st : loop_state) : Prop :=
  Forall (fun r => map fst r = PRODUCT_TARGET_COLS) (prod_rows st)
  /\ Forall (fun r => map fst r = WAREHOUSE_TARGET_COLS) (wh_rows st).

(* ##################################################################### *)
(** * Part III. Facts

    Lemmas about each part of the script, and the theorems that settle the
    claims of the specification. *)
(* ##################################################################### *)

(* ===================================================================== *)
(** ** The Python builtins at work *)
(* ===================================================================== *)

Example truthy_examples :
  map Py.truthy [JNull; JInt 0; JStr ""; JList []; JDict []; JFloat 0; JInt 7; JStr "x"]
  = [false; false; false; false; false; false; true; true].
Proof. reflexivity. Qed.

Example eq_examples :
  (Py.eqb (JInt 1) (JBool true), Py.eqb (JInt 1) (JFloat 1), Py.eqb (JStr "1") (JInt 1),
   Py.eqb (JDict [("a", JInt 1); ("b", JNull)]) (JDict [("b", JNull); ("a", JBool true)]))
  = (true, true, false, true).
Proof. reflexivity. Qed.

Example str_examples repr :
  (Py.str repr JNull, Py.str repr (JInt (-42)), Py.str repr (JStr "a|b"))
  = ("None", "-42", "a|b").
Proof. reflexivity. Qed.

Example strip_examples :
  (Py.strip ":" ":name", Py.strip ":" "vendor:", Py.strip ":" ":", Py.strip ":" "v:n")
  = ("name", "vendor", "", "v:n").
Proof. reflexivity. Qed.

Example split_join_example :
  Py.split "|" (Py.join "|" ["a/b"; "c"; ""]) = ["a/b"; "c"; ""].
Proof. reflexivity. Qed.

Example join_tags_examples :
  map (_join_tags repr_unused)
      [JList [JStr "a|b"; JStr "c"];
       JList [JDict [("label", JStr "x:y")]; JInt 7; JNull];
       JDict [("name", JStr "solo")];
       JStr "one"; JNull]
  = ["a/b|c"; (("x" ++ fullwidth_colon ++ "y") ++ "|7|")%string; "solo"; "one"; ""].
Proof. reflexivity. Qed.

Example join_carts_examples :
  map (_join_carts repr_unused)
      [JList [JDict [("channel", JStr "amazon"); ("store", JStr "main")];
              JDict [("name", JStr "only")]; JDict [("site", JStr "web")]; JDict []];
       JDict [("vendor", JStr "ebay"); ("name", JStr "shop")];
       JStr "x"]
  = [Ok "amazon:main|only|web|"; Ok "ebay:shop"; Ok "x"].
Proof. reflexivity. Qed.

(* ===================================================================== *)
(** ** Facts about [_request_with_retry] *)
(* ===================================================================== *)

Lemma retryable_status_range s :
  retryable_status s = true -> 400 <= s < 600.
Proof.
  unfold retryable_status; cbn [existsb].
  rewrite !orb_true_iff, !Z.eqb_eq. lia.
Qed.

Lemma transient_failing o : transient o = true -> failing o = true.
Proof.
  destruct o as [r|what]; cbn; [|reflexivity].
  intros H%retryable_status_range. apply andb_true_intro; lia.
Qed.

Lemma error_status_not_redirect r :
  (400 <=? status_code r) && (status_code r <? 600) = true -> is_redirect r = false.
Proof.
  intros H. apply andb_prop in H as [H1 H2].
  unfold is_redirect. destruct (location r); [|reflexivity].
  cbn [existsb]. rewrite !orb_false_iff, !Z.eqb_neq. lia.
Qed.

Lemma Zupto_S n : Zupto (S n) = 1 :: map (Z.add 1) (Zupto n).
Proof.
  unfold Zupto. cbn [seq map]. f_equal.
  rewrite <- seq_shift, !map_map. apply map_ext. intros; lia.
Qed.

Lemma failed_attempts_S rq attempt j :
  failed_attempts rq attempt (S j)
  = Get rq :: Sleep (attempt + 1) :: failed_attempts rq (attempt + 1) j.
Proof.
  unfold failed_attempts. rewrite Zupto_S. cbn [flat_map app]. do 2 f_equal.
  rewrite !flat_map_concat_map, map_map. f_equal.
  apply map_ext. intros k. do 3 f_equal. lia.
Qed.

Section FetchFacts.

Context {fl : Floats}.
Variable cfg : Config.
Variable net : network.
Variable u : string.
Variable ps : list (string * Z).

Let rq : Request := {| url := u; params := ps |}.

Lemma attempt_once_failing w :
  failing (net (gets w) rq) = true ->
  attempt_once net u ps w
  = (after_get rq w, Raise (RequestException (failure_of (net (gets w) rq)))).
Proof.
  unfold attempt_once, requests_get, failing, failure_of. fold rq.
  destruct (net (gets w) rq) as [r|what]; [|reflexivity].
  intros H. rewrite (error_status_not_redirect r H).
  destruct (retryable_status (status_code r)); [reflexivity|].
  unfold raise_for_status. rewrite H. reflexivity.
Qed.

Lemma attempt_once_passes w r :
  net (gets w) rq = Responds r -> passes r = true ->
  attempt_once net u ps w = (after_get rq w, Ok r).
Proof.
  unfold attempt_once, requests_get, passes. fold rq.
  intros -> H. apply andb_prop in H as [H1 H2].
  apply negb_true_iff in H1, H2. rewrite H1.
  destruct (retryable_status (status_code r)) eqn:E.
  - apply retryable_status_range in E.
    apply andb_false_iff in H2. rewrite Z.leb_gt, Z.ltb_ge in H2. lia.
  - unfold raise_for_status. rewrite H2. reflexivity.
Qed.

(** [j] failures in a row that the retry budget still covers, each
    followed by a back-off that returns: the loop goes round [j] times,
    sleeping after each. *)
Lemma retry_loop_failing j : forall fuel attempt w,
  (forall i, (i < j)%nat -> failing (net (gets w + i)%nat rq) = true) ->
  (forall k, attempt < k <= attempt + Z.of_nat j -> backoff cfg k = Ok tt) ->
  (j <= Z.to_nat (MAX_RETRIES cfg - attempt))%nat ->
  retry_loop cfg net (j + fuel) u ps attempt w
  = retry_loop cfg net fuel u ps (attempt + Z.of_nat j)
      {| gets := gets w + j; log := log w ++ failed_attempts rq attempt j |}.
Proof.
  induction j as [|j IH]; intros fuel attempt w Hf Hb Hj.
  - cbn [Nat.add failed_attempts Zupto seq map flat_map].
    rewrite Z.add_0_r, Nat.add_0_r, app_nil_r. destruct w; reflexivity.
  - cbn [Nat.add retry_loop].
    rewrite attempt_once_failing
      by (specialize (Hf 0%nat); rewrite Nat.add_0_r in Hf; apply Hf; lia).
    replace (attempt + 1 >? MAX_RETRIES cfg) with false
      by (symmetry; rewrite Z.gtb_ltb; apply Z.ltb_ge; lia).
    rewrite (Hb (attempt + 1)) by lia.
    rewrite IH.
    + rewrite failed_attempts_S. cbn [emit after_get gets log].
      f_equal; [lia|]. f_equal; [lia|].
      rewrite <- !app_assoc. reflexivity.
    + intros i Hi. cbn [emit after_get gets].
      replace (S (gets w) + i)%nat with (gets w + S i)%nat by lia.
      apply Hf. lia.
    + intros k Hk. apply Hb. lia.
    + lia.
Qed.

(** The loop is total: [retry_fuel] iterations are always enough. *)
Lemma retry_loop_total : forall fuel attempt w,
  (Z.to_nat (MAX_RETRIES cfg - attempt) < fuel)%nat ->
  exists out, retry_loop cfg net fuel u ps attempt w = Some out.
Proof.
  induction fuel as [|fuel IH]; intros attempt w Hlt; [lia|].
  cbn [retry_loop].
  destruct (attempt_once net u ps w) as [w1 [r|e]]; [eauto|].
  destruct e; eauto.
  destruct (attempt + 1 >? MAX_RETRIES cfg) eqn:E; [eauto|].
  destruct (backoff cfg (attempt + 1)); [|eauto].
  apply IH. rewrite Z.gtb_ltb in E. apply Z.ltb_ge in E. lia.
Qed.

Lemma _request_with_retry_total w :
  exists out, _request_with_retry cfg net u ps w = Some out.
Proof.
  apply retry_loop_total. unfold retry_fuel. rewrite Z.sub_0_r. lia.
Qed.

End FetchFacts.

Lemma sleeps_of_failed_attempts rq attempt j :
  sleeps_taken (failed_attempts rq attempt j) = map (Z.add attempt) (Zupto j).
Proof.
  unfold sleeps_taken, failed_attempts.
  induction (Zupto j) as [|k l IH]; [reflexivity|].
  cbn [flat_map app map]. rewrite IH. reflexivity.
Qed.

Lemma requests_of_failed_attempts rq attempt j :
  requests_made (failed_attempts rq attempt j) = repeat rq j.
Proof.
  unfold requests_made, failed_attempts, Zupto.
  transitivity (repeat rq (List.length (seq 1 j))); [|now rewrite length_seq].
  induction (seq 1 j) as [|k l IH]; [reflexivity|].
  cbn [flat_map app map List.length repeat]. rewrite IH. reflexivity.
Qed.

Section RetryOutcomes.

Context {fl : Floats}.
Variable cfg : Config.
Variable net : network.
Variable u : string.
Variable ps : list (string * Z).

Let rq : Request := {| url := u; params := ps |}.
Let cap : nat := Z.to_nat (MAX_RETRIES cfg).

(** [j] failures within the cap, then a response that passes. *)
Lemma retry_then_pass w j r :
  (j <= cap)%nat ->
  (forall i, (i < j)%nat -> failing (net (gets w + i)%nat rq) = true) ->
  (forall k, 0 < k <= Z.of_nat j -> backoff cfg k = Ok tt) ->
  net (gets w + j)%nat rq = Responds r -> passes r = true ->
  _request_with_retry cfg net u ps w = Some (world_after u ps w j, Ok r).
Proof.
  intros Hj Hf Hb Hr Hp. unfold _request_with_retry, retry_fuel. fold cap.
  replace (S cap) with (j + S (cap - j))%nat by lia.
  rewrite retry_loop_failing by (rewrite ?Z.sub_0_r; assumption).
  cbn [retry_loop].
  erewrite attempt_once_passes by (cbn [gets]; eassumption).
  unfold world_after, after_get. cbn [gets log].
  rewrite <- app_assoc. reflexivity.
Qed.

(** One failure more than the cap allows: the last one is re-raised. *)
Lemma retry_exhausted w :
  (forall i, (i <= cap)%nat -> failing (net (gets w + i)%nat rq) = true) ->
  (forall k, 0 < k <= Z.of_nat cap -> backoff cfg k = Ok tt) ->
  _request_with_retry cfg net u ps w
  = Some (world_after u ps w cap,
          Raise (RequestException (failure_of (net (gets w + cap)%nat rq)))).
Proof.
  intros Hf Hb. unfold _request_with_retry, retry_fuel. fold cap.
  replace (S cap) with (cap + 1)%nat by lia.
  rewrite retry_loop_failing;
    [ | intros; apply Hf; lia | assumption | rewrite Z.sub_0_r; reflexivity ].
  cbn [retry_loop]. rewrite attempt_once_failing by (apply Hf; lia).
  cbn [after_get gets log].
  replace (0 + Z.of_nat cap + 1 >? MAX_RETRIES cfg) with true
    by (symmetry; rewrite Z.gtb_ltb; apply Z.ltb_lt; unfold cap; lia).
  unfold world_after, after_get. cbn [gets log].
  rewrite <- app_assoc. reflexivity.
Qed.

(** [j] failures followed by back-offs that return, then a failure whose
    back-off raises: that exception is what the caller gets. *)
Lemma retry_backoff_raises w j e :
  (j < cap)%nat ->
  (forall i, (i <= j)%nat -> failing (net (gets w + i)%nat rq) = true) ->
  (forall k, 0 < k <= Z.of_nat j -> backoff cfg k = Ok tt) ->
  backoff cfg (Z.of_nat j + 1) = Raise e ->
  _request_with_retry cfg net u ps w = Some (world_after u ps w j, Raise e).
Proof.
  intros Hj Hf Hb He. unfold _request_with_retry, retry_fuel. fold cap.
  replace (S cap) with (j + S (cap - j))%nat by lia.
  rewrite retry_loop_failing;
    [ | intros; apply Hf; lia | assumption | rewrite Z.sub_0_r; fold cap; lia ].
  cbn [retry_loop]. rewrite attempt_once_failing by (apply Hf; lia).
  cbn [after_get gets log].
  replace (0 + Z.of_nat j + 1 >? MAX_RETRIES cfg) with false
    by (symmetry; rewrite Z.gtb_ltb; apply Z.ltb_ge; unfold cap in Hj; lia).
  rewrite Z.add_0_l, He.
  unfold world_after, after_get. cbn [gets log].
  rewrite <- app_assoc. reflexivity.
Qed.

End RetryOutcomes.

(** *** The back-off under CPython's floats *)

Lemma cpython_pow_in_range q n :
  0 < n -> (Qabs (q ^ n) < DBL_OVERFLOW)%Q ->
  cpython_pow (Finite q) n = Ok (Finite (q ^ n)).
Proof.
  intros Hn Hlt. unfold cpython_pow.
  replace (n =? 0) with false by (symmetry; apply Z.eqb_neq; lia).
  replace (n <? 0) with false by (symmetry; apply Z.ltb_ge; lia).
  rewrite andb_false_r. cbv zeta.
  destruct (Qle_bool DBL_OVERFLOW (Qabs (q ^ n))) eqn:E; [|reflexivity].
  apply Qle_bool_iff in E. exfalso. apply (Qlt_not_le _ _ Hlt E).
Qed.

Lemma cpython_pow_out_of_range q n :
  0 < n -> (DBL_OVERFLOW <= Qabs (q ^ n))%Q ->
  cpython_pow (Finite q) n = Raise OverflowError.
Proof.
  intros Hn Hle. unfold cpython_pow.
  replace (n =? 0) with false by (symmetry; apply Z.eqb_neq; lia).
  replace (n <? 0) with false by (symmetry; apply Z.ltb_ge; lia).
  rewrite andb_false_r. cbv zeta.
  apply Qle_bool_iff in Hle. rewrite Hle. reflexivity.
Qed.

(** A power that is in range is what [**] returns, and conversely. *)
Lemma cpython_pow_returns q n y :
  0 < n -> cpython_pow (Finite q) n = Ok y ->
  y = Finite (q ^ n) /\ (Qabs (q ^ n) < DBL_OVERFLOW)%Q.
Proof.
  intros Hn. unfold cpython_pow.
  replace (n =? 0) with false by (symmetry; apply Z.eqb_neq; lia).
  replace (n <? 0) with false by (symmetry; apply Z.ltb_ge; lia).
  rewrite andb_false_r. cbv zeta.
  destruct (Qle_bool DBL_OVERFLOW (Qabs (q ^ n))) eqn:E; [discriminate|].
  intros [= <-]. split; [reflexivity|].
  apply Qnot_le_lt. intros H. apply Qle_bool_iff in H. congruence.
Qed.

(** For a base of 1 or more the powers grow, so the earlier ones are in
    range when a later one is. *)
Lemma cpython_pow_earlier q n k :
  (1 <= q)%Q -> 0 < k <= n ->
  (Qabs (q ^ n) < DBL_OVERFLOW)%Q ->
  (0 <= q ^ k <= q ^ n)%Q /\ (Qabs (q ^ k) < DBL_OVERFLOW)%Q.
Proof.
  intros Hq Hk Hn.
  assert (H0 : (0 <= q)%Q) by (eapply Qle_trans; [|exact Hq]; discriminate).
  assert (Hkn : (q ^ k <= q ^ n)%Q) by (apply Qpower_le_compat_l; [lia|exact Hq]).
  assert (Hk0 : (0 <= q ^ k)%Q) by now apply Qpower_0_le.
  split; [split; assumption|].
  rewrite (Qabs_pos _ Hk0).
  eapply Qle_lt_trans; [exact Hkn|].
  rewrite <- (Qabs_pos (q ^ n)); [exact Hn|].
  now apply Qpower_0_le.
Qed.

Lemma nanoseconds_nonneg y : (0 <= y)%Q -> 0 <= nanoseconds y.
Proof.
  intros Hy. unfold nanoseconds.
  assert (H : (0 <= y * inject_Z (10 ^ 9))%Q)
    by (apply Qmult_le_0_compat; [exact Hy|discriminate]).
  apply Qle_bool_iff in H as Hb. rewrite Hb.
  change 0 with (Qceiling (inject_Z 0)) at 1. apply Qceiling_resp_le, H.
Qed.

(** A shorter sleep is accepted when a longer one is. *)
Lemma cpython_sleep_shorter y y' :
  (0 <= y <= y')%Q ->
  cpython_sleep (Finite y') = Ok tt -> cpython_sleep (Finite y) = Ok tt.
Proof.
  intros [Hy Hyy'].
  assert (Hy' : (0 <= y')%Q) by (eapply Qle_trans; eassumption).
  pose proof (nanoseconds_nonneg y Hy) as H0.
  pose proof (nanoseconds_nonneg y' Hy') as H0'.
  assert (Hle : nanoseconds y <= nanoseconds y').
  { unfold nanoseconds.
    assert (H : (0 <= y * inject_Z (10 ^ 9))%Q)
      by (apply Qmult_le_0_compat; [exact Hy|discriminate]).
    assert (H' : (0 <= y' * inject_Z (10 ^ 9))%Q)
      by (apply Qmult_le_0_compat; [exact Hy'|discriminate]).
    apply Qle_bool_iff in H, H'. rewrite H, H'.
    apply Qceiling_resp_le, Qmult_le_compat_r; [exact Hyy'|discriminate]. }
  unfold cpython_sleep. cbv zeta.
  destruct ((- 2 ^ 63 <=? nanoseconds y') && (nanoseconds y' <? 2 ^ 63)) eqn:E;
    [|discriminate].
  intros _. apply andb_prop in E as [_ E]. apply Z.ltb_lt in E.
  replace (- 2 ^ 63 <=? nanoseconds y) with true
    by (symmetry; apply Z.leb_le; lia).
  replace (nanoseconds y <? 2 ^ 63) with true
    by (symmetry; apply Z.ltb_lt; lia).
  replace (nanoseconds y <? 0) with false
    by (symmetry; apply Z.ltb_ge; lia).
  reflexivity.
Qed.

(** With a base of 1 or more the back-offs grow: when the [n]-th can be
    computed and slept, so can those before it. *)
Lemma backoff_earlier cfg q n k :
  BACKOFF_BASE cfg = Finite q -> (1 <= q)%Q -> 0 < k <= n ->
  backoff (fl := cpython) cfg n = Ok tt ->
  backoff (fl := cpython) cfg k = Ok tt.
Proof.
  intros Hb Hq Hk. unfold backoff. rewrite Hb. cbn [float_pow time_sleep cpython].
  destruct (cpython_pow (Finite q) n) as [y|e] eqn:E; [|discriminate].
  apply cpython_pow_returns in E as [-> Hn]; [|lia].
  destruct (cpython_pow_earlier q n k Hq Hk Hn) as [Hkn Hk'].
  rewrite (cpython_pow_in_range q k) by (lia || exact Hk').
  cbn [bind]. apply cpython_sleep_shorter, Hkn.
Qed.

(** Powers grow with the base. *)
Lemma Qpower_le_base (a c : Q) (n : nat) :
  (0 <= a <= c)%Q -> (0 <= a ^ Z.of_nat n <= c ^ Z.of_nat n)%Q.
Proof.
  intros [Ha Hac]. induction n as [|n IH].
  - cbn. split; discriminate.
  - rewrite Nat2Z.inj_succ, <- Z.add_1_l.
    rewrite !Qpower_plus' by lia.
    change (a ^ 1)%Q with a. change (c ^ 1)%Q with c.
    split.
    + apply Qmult_le_0_compat; [exact Ha|apply IH].
    + apply Qmult_le_compat_nonneg; [split; assumption|exact IH].
Qed.

Lemma double_1_4_nonneg : (0 <= double_1_4)%Q.
Proof. discriminate. Qed.

(** [1.4 ** 2109] is still a double: [1.4 ** 103 <= 2 ** 50] and
    [1.4 ** 49 <= 2 ** 24 - 2 ** 10]. *)
Lemma power_2109_in_range : (Qabs (double_1_4 ^ 2109) < DBL_OVERFLOW)%Q.
Proof.
  rewrite Qabs_pos by (apply Qpower_0_le, double_1_4_nonneg).
  change 2109 with (103 * 20 + 49).
  rewrite Qpower_plus by discriminate.
  rewrite Qpower_mult.
  apply Qle_lt_trans with (inject_Z (2 ^ 50) ^ 20 * inject_Z (2 ^ 24 - 2 ^ 10))%Q.
  - apply Qmult_le_compat_nonneg.
    + apply (Qpower_le_base (double_1_4 ^ 103) (inject_Z (2 ^ 50)) 20).
      split; [apply Qpower_0_le, double_1_4_nonneg|].
      apply Qle_bool_iff. vm_compute. reflexivity.
    + split; [apply Qpower_0_le, double_1_4_nonneg|].
      apply Qle_bool_iff. vm_compute. reflexivity.
  - vm_compute. reflexivity.
Qed.

(** [1.4 ** 2110] is not: [1.4 ** 171 >= 2 ** 83] and [1.4 ** 58 >= 2 ** 28],
    and [83 * 12 + 28 = 1024]. *)
Lemma power_2110_out_of_range : (DBL_OVERFLOW <= Qabs (double_1_4 ^ 2110))%Q.
Proof.
  rewrite Qabs_pos by (apply Qpower_0_le, double_1_4_nonneg).
  change 2110 with (171 * 12 + 58).
  rewrite Qpower_plus by discriminate.
  rewrite Qpower_mult.
  apply Qle_trans with (inject_Z (2 ^ 83) ^ 12 * inject_Z (2 ^ 28))%Q.
  - apply Qle_bool_iff. vm_compute. reflexivity.
  - apply Qmult_le_compat_nonneg.
    + apply (Qpower_le_base (inject_Z (2 ^ 83)) (double_1_4 ^ 171) 12).
      split; [discriminate|].
      apply Qle_bool_iff. vm_compute. reflexivity.
    + split; [discriminate|].
      apply Qle_bool_iff. vm_compute. reflexivity.
Qed.

(** The powers of the default base: the 2110th is the first that [**]
    refuses. *)
Lemma power_overflows_at_2110 :
  (forall k, 0 < k <= 2109 ->
             cpython_pow default_backoff k = Ok (Finite (double_1_4 ^ k)))
  /\ cpython_pow default_backoff 2110 = Raise OverflowError.
Proof.
  split.
  - intros k Hk. apply cpython_pow_in_range; [lia|].
    apply (cpython_pow_earlier double_1_4 2109 k);
      [discriminate | exact Hk | exact power_2109_in_range].
  - apply cpython_pow_out_of_range; [lia|exact power_2110_out_of_range].
Qed.

(** Failures of line 97 under CPython's floats: the default base outgrows
    the clock of [time.sleep] at the 69th back-off; a negative base is
    refused at once, and so are NaN and the infinities. *)
Example backoff_examples :
  backoff (fl := cpython) cfg5 68 = Ok tt
  /\ backoff (fl := cpython) cfg5 69 = Raise OverflowError
  /\ backoff (fl := cpython) eager_cfg 1 = Raise ValueError
  /\ map cpython_sleep [NotANumber; Infinite false; Infinite true; Finite 0]
     = [Raise ValueError; Raise OverflowError; Raise OverflowError; Ok tt].
Proof.
  split; [|split; [|split]]; vm_compute; reflexivity.
Qed.

(** C5 (as stated it fails). With [MAX_RETRIES = 2200] and the default
    [BACKOFF_BASE], a source that always answers 503 is not asked 2201
    times and the 503 is not what the caller gets: the 69th back-off,
    [1.4 ** 69] seconds, is longer than [time.sleep] accepts, and its
    [OverflowError] leaves the [except] clause after 69 GETs. *)
Lemma backoff_out_of_range_ends_the_retries :
  exists w',
    _request_with_retry patient_cfg (fun _ _ => status_only 503) "u" [] world0
    = Some (w', Raise OverflowError)
    /\ sleeps_taken (log w') = Zupto 68
    /\ List.length (requests_made (log w')) = 69%nat.
Proof.
  exists (world_after "u" [] world0 68). split; [|split; reflexivity].
  apply retry_backoff_raises.
  - vm_compute. lia.
  - intros i _. reflexivity.
  - intros k Hk.
    apply (backoff_earlier patient_cfg double_1_4 68 k eq_refl);
      [discriminate | lia | vm_compute; reflexivity].
  - vm_compute; reflexivity.
Qed.

(** The same run with [time.sleep] patched out: the retries go on until
    the power itself overflows, at the 2110th failure. *)
Lemma power_overflow_ends_the_retries :
  exists w',
    _request_with_retry (fl := patched_sleep) patient_cfg
                        (fun _ _ => status_only 503) "u" [] world0
    = Some (w', Raise OverflowError)
    /\ sleeps_taken (log w') = Zupto 2109
    /\ List.length (requests_made (log w')) = 2110%nat.
Proof.
  exists (world_after "u" [] world0 2109).
  split; [|split; vm_compute; reflexivity].
  apply (retry_backoff_raises (fl := patched_sleep)).
  - vm_compute. lia.
  - intros i _. reflexivity.
  - intros k Hk. unfold backoff. cbn [BACKOFF_BASE patient_cfg float_pow patched_sleep].
    rewrite (proj1 power_overflows_at_2110 k) by lia. reflexivity.
  - unfold backoff. cbn [BACKOFF_BASE patient_cfg float_pow patched_sleep].
    change (Z.of_nat 2109 + 1) with 2110.
    rewrite (proj2 power_overflows_at_2110). reflexivity.
Qed.

(** C5. Transient failures (a status in 429, 500, 502, 503, 504 or a
    transport failure) are retried: before retry number [k] the script
    sleeps [BACKOFF_BASE ** k], for [k = 1, 2, ...].  As long as these
    back-offs can be computed and slept, a response that comes within
    [MAX_RETRIES] retries is returned, and when the attempt after the last
    allowed retry fails as well, that last failure is raised.  A back-off
    that raises ends the retries: its exception is what the caller gets. *)
Theorem transient_failures_are_retried {fl : Floats} cfg net u ps w :
  let rq := {| url := u; params := ps |} in
  let cap := Z.to_nat (MAX_RETRIES cfg) in
  (forall j r,
      (j <= cap)%nat ->
      (forall i, (i < j)%nat -> transient (net (gets w + i)%nat rq) = true) ->
      (forall k, 0 < k <= Z.of_nat j -> backoff cfg k = Ok tt) ->
      net (gets w + j)%nat rq = Responds r -> passes r = true ->
      exists w',
        _request_with_retry cfg net u ps w = Some (w', Ok r)
        /\ log w' = log w ++ failed_attempts rq 0 j ++ [Get rq]
        /\ sleeps_taken (log w') = sleeps_taken (log w) ++ Zupto j
        /\ requests_made (log w') = requests_made (log w) ++ repeat rq (S j))
  /\
  ((forall i, (i <= cap)%nat -> transient (net (gets w + i)%nat rq) = true) ->
   (forall k, 0 < k <= Z.of_nat cap -> backoff cfg k = Ok tt) ->
   exists w',
     _request_with_retry cfg net u ps w
     = Some (w', Raise (RequestException (failure_of (net (gets w + cap)%nat rq))))
     /\ log w' = log w ++ failed_attempts rq 0 cap ++ [Get rq]
     /\ sleeps_taken (log w') = sleeps_taken (log w) ++ Zupto cap
     /\ requests_made (log w') = requests_made (log w) ++ repeat rq (S cap))
  /\
  (forall j e,
      (j < cap)%nat ->
      (forall i, (i <= j)%nat -> transient (net (gets w + i)%nat rq) = true) ->
      (forall k, 0 < k <= Z.of_nat j -> backoff cfg k = Ok tt) ->
      backoff cfg (Z.of_nat j + 1) = Raise e ->
      exists w',
        _request_with_retry cfg net u ps w = Some (w', Raise e)
        /\ log w' = log w ++ failed_attempts rq 0 j ++ [Get rq]
        /\ sleeps_taken (log w') = sleeps_taken (log w) ++ Zupto j
        /\ requests_made (log w') = requests_made (log w) ++ repeat rq (S j)).
Proof.
  intros rq cap.
  assert (Hlog : forall j,
    sleeps_taken (log w ++ failed_attempts rq 0 j ++ [Get rq])
    = sleeps_taken (log w) ++ Zupto j
    /\ requests_made (log w ++ failed_attempts rq 0 j ++ [Get rq])
       = requests_made (log w) ++ repeat rq (S j)).
  { intros j. unfold sleeps_taken, requests_made.
    rewrite !flat_map_app.
    fold (sleeps_taken (failed_attempts rq 0 j)).
    fold (requests_made (failed_attempts rq 0 j)).
    rewrite sleeps_of_failed_attempts, requests_of_failed_attempts.
    cbn [flat_map app]. rewrite app_nil_r. split.
    - f_equal. rewrite <- (map_id (Zupto j)) at 2. apply map_ext. intros; lia.
    - f_equal. change [rq] with (repeat rq 1). rewrite <- repeat_app.
      f_equal. lia. }
  split; [|split].
  - intros j r Hj Ht Hb Hr Hp.
    exists (world_after u ps w j). split; [|split; [reflexivity|apply Hlog]].
    apply retry_then_pass; auto using transient_failing.
  - intros Ht Hb.
    exists (world_after u ps w cap). split; [|split; [reflexivity|apply Hlog]].
    apply retry_exhausted; auto using transient_failing.
  - intros j e Hj Ht Hb He.
    exists (world_after u ps w j). split; [|split; [reflexivity|apply Hlog]].
    apply retry_backoff_raises; auto using transient_failing.
Qed.

Lemma transient_failures_are_retried_witness :
  (exists w',
      _request_with_retry cfg5 flaky_net "u" [] world0
      = Some (w', Ok {| status_code := 200; location := None; body := Some (JList []) |})
      /\ sleeps_taken (log w') = [1; 2])
  /\
  (exists w',
      _request_with_retry cfg5 (fun _ _ => Fails "timeout") "u" [] world0
      = Some (w', Raise (RequestException (TransportFailure "timeout")))
      /\ sleeps_taken (log w') = [1; 2; 3; 4; 5])
  /\
  (exists w',
      _request_with_retry eager_cfg flaky_net "u" [] world0
      = Some (w', Raise ValueError)
      /\ sleeps_taken (log w') = []
      /\ requests_made (log w') = [{| url := "u"; params := [] |}]).
Proof.
  assert (Hb : forall n k, 0 < k <= Z.of_nat n -> (n <= 5)%nat ->
                           backoff cfg5 k = Ok tt).
  { intros n k Hk Hn.
    assert (H : k = 1 \/ k = 2 \/ k = 3 \/ k = 4 \/ k = 5) by lia.
    destruct H as [->|[->|[->|[->| ->]]]]; vm_compute; reflexivity. }
  split; [|split].
  - destruct (proj1 (transient_failures_are_retried cfg5 flaky_net "u" [] world0)
                2%nat {| status_code := 200; location := None; body := Some (JList []) |})
      as (w' & H1 & _ & H2 & _).
    + cbn; lia.
    + intros i Hi. destruct i as [|[|i]]; [reflexivity|reflexivity|lia].
    + intros k Hk. apply (Hb 2%nat); [exact Hk|lia].
    + reflexivity.
    + reflexivity.
    + exists w'. split; [exact H1 | exact H2].
  - destruct (proj1 (proj2 (transient_failures_are_retried
                              cfg5 (fun _ _ => Fails "timeout") "u" [] world0)))
      as (w' & H1 & _ & H2 & _).
    + reflexivity.
    + intros k Hk. apply (Hb 5%nat); [exact Hk|lia].
    + exists w'. split; [exact H1 | exact H2].
  - destruct (proj2 (proj2 (transient_failures_are_retried
                              eager_cfg flaky_net "u" [] world0))
                0%nat ValueError)
      as (w' & H1 & _ & H2 & H3).
    + cbn; lia.
    + intros i Hi. replace i with 0%nat by lia. reflexivity.
    + intros k Hk. cbn in Hk. lia.
    + vm_compute; reflexivity.
    + exists w'. split; [exact H1 | split; [exact H2 | exact H3]].
Defined.

(** C3 (the code departs from it). A 404 is not answered by an immediate
    failure: [raise_for_status] raises an [HTTPError], which the very same
    [except requests.RequestException] clause catches, so the request is
    repeated [MAX_RETRIES] times, with a back-off before each repetition,
    and only then is the error raised. *)
Theorem not_found_is_retried :
  exists w',
    _request_with_retry cfg5 (fun _ _ => status_only 404) "u" [] world0
    = Some (w', Raise (RequestException (StatusError 404)))
    /\ sleeps_taken (log w') = [1; 2; 3; 4; 5]
    /\ List.length (requests_made (log w')) = 6%nat.
Proof.
  exists (world_after "u" [] world0 5).
  split; [vm_compute; reflexivity|]. split; reflexivity.
Qed.

(* ===================================================================== *)
(** ** Facts about the pagination generator *)
(* ===================================================================== *)

Lemma yielded_batches_app l1 l2 :
  yielded_batches (l1 ++ l2) = yielded_batches l1 ++ yielded_batches l2.
Proof. apply flat_map_app. Qed.

Ltac log_extended :=
  cbn [fst log]; rewrite <- ?app_assoc;
  eexists; split; [reflexivity | reflexivity].

Section CursorFacts.

Context {fl : Floats}.
Variable cfg : Config.
Variable net : network.
Variable limit_each : Z.

(** Fetching never yields: it only appends GETs and sleeps to the trace. *)
Lemma attempt_once_log u ps w :
  exists evs, log (fst (attempt_once net u ps w)) = log w ++ evs
              /\ yielded_batches evs = [].
Proof.
  unfold attempt_once, requests_get.
  destruct (net (gets w) _) as [r|what]; [|log_extended].
  destruct (is_redirect r);
    [destruct (location r) as [loc|];
     [destruct (negb (loc =? "")%string && String.prefix "http://" loc);
      [destruct (net _ _) as [r'|what']|]|]|];
    try destruct (retryable_status _); log_extended.
Qed.

Lemma retry_loop_log u ps : forall fuel attempt w w1 r,
  retry_loop cfg net fuel u ps attempt w = Some (w1, r) ->
  exists evs, log w1 = log w ++ evs /\ yielded_batches evs = [].
Proof.
  induction fuel as [|fuel IH]; intros attempt w w1 r; [discriminate|].
  cbn [retry_loop].
  destruct (attempt_once_log u ps w) as (evs & Hlog & Hy).
  destruct (attempt_once net u ps w) as [w' [resp|e]]; cbn [fst] in Hlog.
  - intros [= <- <-]. eauto.
  - destruct e; try (intros [= <- <-]; eauto).
    destruct (_ >? _); [intros [= <- <-]; eauto|].
    destruct (backoff cfg _); [|intros [= <- <-]; eauto].
    intros H. apply IH in H as (evs' & Hlog' & Hy').
    cbn [emit log] in Hlog'. rewrite Hlog, <- !app_assoc in Hlog'.
    eexists. split; [exact Hlog'|].
    rewrite !yielded_batches_app, Hy, Hy'. reflexivity.
Qed.

(** Handling a batch extends the trace by what it yields, and by nothing
    else. *)
Lemma handle_batch_log st w1 batch w2 out :
  handle_batch limit_each st w1 batch = (w2, out) ->
  exists evs, log w2 = log w1 ++ evs
              /\ yielded_batches evs
                 = match out with Yield b _ => [b] | _ => [] end.
Proof.
  unfold handle_batch.
  destruct batch as [|b0 rest]; [intros [= <- <-]; exists []; rewrite app_nil_r; auto|].
  destruct (first_id_of b0) as [fid|e];
    [|intros [= <- <-]; exists []; rewrite app_nil_r; auto].
  destruct (negb _ && negb _ && _).
  { destruct (limit_each =? 0); intros [= <- <-]; exists [];
      rewrite app_nil_r; auto. }
  destruct (_ <? _); [intros [= <- <-]; eexists [_]; split; reflexivity|].
  destruct (use_page_mode st); intros [= <- <-]; eexists [_]; split; reflexivity.
Qed.

(** One pass through the loop extends the trace, and what it yields is
    exactly what its outcome says. *)
Lemma iter_body_log st w w1 out :
  iter_body cfg net limit_each st w = Some (w1, out) ->
  exists evs, log w1 = log w ++ evs
              /\ yielded_batches evs
                 = match out with Yield b _ => [b] | _ => [] end.
Proof.
  unfold iter_body, _request_with_retry.
  destruct (retry_loop _ _ _ _ _ _ _) as [[w' [r|e]]|] eqn:E; [| |discriminate];
    apply retry_loop_log in E as (evs & Hlog & Hy).
  2:{ intros [= <- <-]. eauto. }
  destruct (body r) as [data|]; [|intros [= <- <-]; eauto].
  intros [= H]. apply handle_batch_log in H as (evs' & Hlog' & Hy').
  exists (evs ++ evs'). rewrite Hlog', Hlog, app_assoc. split; [reflexivity|].
  rewrite yielded_batches_app, Hy, Hy'. reflexivity.
Qed.

(** What the next state of a pass looks like. *)
Lemma handle_batch_switch st w1 batch w2 st' :
  handle_batch limit_each st w1 batch = (w2, Switch st') ->
  use_page_mode st = false /\ last_first_id st <> JNull
  /\ limit_each <> 0
  /\ st' = {| offset := offset st; last_first_id := last_first_id st;
              use_page_mode := true; page := offset st / limit_each + 2 |}.
Proof.
  unfold handle_batch.
  destruct batch as [|b0 rest]; try discriminate.
  destruct (first_id_of b0) as [fid|e]; try discriminate.
  destruct (use_page_mode st) eqn:Em; cbn [negb andb].
  - destruct (_ <? _); discriminate.
  - destruct (Py.is_none (last_first_id st)) eqn:En; cbn [negb andb].
    + destruct (_ <? _); discriminate.
    + destruct (Py.eqb fid (last_first_id st)).
      * destruct (limit_each =? 0) eqn:El; [discriminate|].
        intros [= <- <-]. apply Z.eqb_neq in El.
        repeat split; auto. intros Hn. rewrite Hn in En. discriminate.
      * destruct (_ <? _); discriminate.
Qed.

Lemma handle_batch_yield st w1 batch w2 b next :
  handle_batch limit_each st w1 batch = (w2, Yield b next) ->
  b = batch /\ b <> []
  /\ next = (if Z.of_nat (List.length b) <? limit_each then None
             else if use_page_mode st
             then Some {| offset := offset st; last_first_id := last_first_id st;
                          use_page_mode := true; page := page st + 1 |}
             else match b with
                  | b0 :: _ =>
                      match first_id_of b0 with
                      | Ok fid =>
                          Some {| offset := offset st + Z.of_nat (List.length b);
                                  last_first_id := fid;
                                  use_page_mode := false; page := page st |}
                      | Raise _ => None
                      end
                  | [] => None
                  end).
Proof.
  unfold handle_batch.
  destruct batch as [|b0 rest]; try discriminate.
  destruct (first_id_of b0) as [fid|e] eqn:Ef; try discriminate.
  destruct (negb _ && negb _ && _).
  { destruct (limit_each =? 0); discriminate. }
  destruct (_ <? _) eqn:El.
  - intros [= <- <- <-]. rewrite El. repeat split; discriminate.
  - destruct (use_page_mode st); intros [= <- <- <-]; rewrite El, ?Ef;
      repeat split; discriminate.
Qed.

Lemma iter_body_handled st w w2 out :
  iter_body cfg net limit_each st w = Some (w2, out) ->
  (exists e, out = Raised e)
  \/ (exists w1 batch, handle_batch limit_each st w1 batch = (w2, out)).
Proof.
  unfold iter_body.
  destruct (_request_with_retry _ _ _ _ _) as [[w' [r|e]]|]; try discriminate.
  - destruct (body r) as [data|].
    + intros [= H]. right. eauto.
    + intros [= <- <-]. left. eauto.
  - intros [= <- <-]. left. eauto.
Qed.

Lemma iter_body_switch st w w1 st' :
  iter_body cfg net limit_each st w = Some (w1, Switch st') ->
  use_page_mode st = false /\ last_first_id st <> JNull
  /\ limit_each <> 0
  /\ st' = {| offset := offset st; last_first_id := last_first_id st;
              use_page_mode := true; page := offset st / limit_each + 2 |}.
Proof.
  intros [[e [=]]|(w' & batch & H)]%iter_body_handled.
  eapply handle_batch_switch; eauto.
Qed.

Lemma iter_body_yield st w w1 b next :
  iter_body cfg net limit_each st w = Some (w1, Yield b next) ->
  b <> []
  /\ next = (if Z.of_nat (List.length b) <? limit_each then None
             else if use_page_mode st
             then Some {| offset := offset st; last_first_id := last_first_id st;
                          use_page_mode := true; page := page st + 1 |}
             else match b with
                  | b0 :: _ =>
                      match first_id_of b0 with
                      | Ok fid =>
                          Some {| offset := offset st + Z.of_nat (List.length b);
                                  last_first_id := fid;
                                  use_page_mode := false; page := page st |}
                      | Raise _ => None
                      end
                  | [] => None
                  end).
Proof.
  intros [[e [=]]|(w' & batch & H)]%iter_body_handled.
  apply handle_batch_yield in H as (_ & H1 & H2). auto.
Qed.

(** The invariant behind stall detection: a remembered first id means a
    batch has been handed out. *)
Lemma remembered_id_after_yield st w :
  reaches cfg net limit_each st w ->
  last_first_id st <> JNull -> yielded_batches (log w) <> [].
Proof.
  induction 1 as [|st w w1 st' Hr IH Hb|st w w1 b st' Hr IH Hb]; intros Hid.
  - contradiction.
  - destruct (iter_body_switch _ _ _ _ Hb) as (_ & Hn & _ & ->).
    apply iter_body_log in Hb as (evs & -> & _).
    rewrite yielded_batches_app. intros [H1 _]%app_eq_nil. now apply IH.
  - apply iter_body_log in Hb as (evs & -> & Hy).
    rewrite yielded_batches_app, Hy. intros [_ H2]%app_eq_nil. discriminate.
Qed.

End CursorFacts.

Section StallFacts.

Context {fl : Floats}.
Variable cfg : Config.
Variable net : network.
Variable limit_each : Z.

(** In offset mode the offset has moved past every batch handed out. *)
Lemma offset_after_yield st w :
  0 < limit_each ->
  reaches cfg net limit_each st w ->
  0 <= offset st /\ (last_first_id st <> JNull -> limit_each <= offset st).
Proof.
  intros Hl.
  induction 1 as [|st w w1 st' Hr IH Hb|st w w1 b st' Hr IH Hb].
  - cbn. split; [lia|contradiction].
  - apply iter_body_switch in Hb as (_ & _ & _ & ->). exact IH.
  - apply iter_body_yield in Hb as (Hne & Hnext).
    destruct (_ <? _) eqn:El; [discriminate|]. apply Z.ltb_ge in El.
    destruct (use_page_mode st).
    + injection Hnext as ->. exact IH.
    + destruct b as [|b0 rest]; [discriminate|].
      destruct (first_id_of b0); [|discriminate].
      injection Hnext as ->. cbn in El |- *. lia.
Qed.

(** Whenever a stall is detected, the page asked for next is the third or a
    later one: the offset was advanced past the last batch handed out
    before the stalled request was made. *)
Lemma stall_switch_page st w w1 st' :
  0 < limit_each ->
  reaches cfg net limit_each st w ->
  iter_body cfg net limit_each st w = Some (w1, Switch st') ->
  3 <= page st'.
Proof.
  intros Hl Hr Hb.
  destruct (offset_after_yield st w Hl Hr) as [_ Hoff].
  apply iter_body_switch in Hb as (_ & Hid & _ & ->). cbn [page].
  specialize (Hoff Hid).
  assert (1 <= offset st / limit_each) by (apply Z.div_le_lower_bound; lia).
  lia.
Qed.

End StallFacts.

(** What [(b0 or {}).get("id")] does with the first record of a batch. *)
Lemma first_id_of_readable b0 :
  id_can_be_read b0 = true -> exists fid, first_id_of b0 = Ok fid.
Proof.
  unfold id_can_be_read, first_id_of, Py.or_.
  destruct (Py.truthy b0) eqn:Et; [|eauto].
  rewrite orb_false_r. destruct b0; try discriminate. eauto.
Qed.

Lemma first_id_of_unreadable b0 :
  id_can_be_read b0 = false -> first_id_of b0 = Raise AttributeError.
Proof.
  unfold id_can_be_read, first_id_of, Py.or_.
  intros [Hm Ht]%orb_false_elim. apply negb_false_iff in Ht. rewrite Ht.
  destruct b0; try reflexivity. discriminate.
Qed.

(** C10 (as stated it fails). The first non-empty batch is not always
    yielded: when its first record is a truthy value that is no mapping,
    here the string ["junk"], [(batch[0] or {}).get] raises
    [AttributeError] before the [yield], and the generator dies having
    handed out nothing. *)
Lemma junk_first_record_is_not_yielded :
  iter_products_batches cfg5 (finite_source [JStr "junk"; product 1]) 2 1
  = Some ({| gets := 1; log := [Get (offset_request 2 0)] |},
          Raise AttributeError)
  /\ serve [JStr "junk"; product 1] (params (offset_request 2 0))
     = [JStr "junk"; product 1].
Proof. split; reflexivity. Qed.

(** C10. A stall can only be detected after a batch has been handed out:
    [last_first_id] starts as [None] and is only set on the pass that
    yields, so as long as nothing has been yielded no first id is
    remembered.  The first non-empty batch that the source returns is
    therefore yielded as it is whenever the id of its first record can be
    read, that is when this record is a mapping or a falsy value; when it
    is anything else, reading the id raises [AttributeError] and nothing
    is yielded. *)
Theorem stall_needs_a_yielded_batch {fl : Floats} cfg net limit_each :
  (forall st w w1 st',
      reaches cfg net limit_each st w ->
      iter_body cfg net limit_each st w = Some (w1, Switch st') ->
      yielded_batches (log w) <> [])
  /\
  (forall st w,
      reaches cfg net limit_each st w ->
      yielded_batches (log w) = [] -> last_first_id st = JNull)
  /\
  (forall st w w1 r data b0 rest,
      reaches cfg net limit_each st w ->
      yielded_batches (log w) = [] ->
      _request_with_retry cfg net (BASE ++ "/product/")%string
                          (request_params limit_each st) w = Some (w1, Ok r) ->
      body r = Some data ->
      extract_batch data = b0 :: rest ->
      if id_can_be_read b0
      then exists next,
             iter_body cfg net limit_each st w
             = Some (emit (Yielded (b0 :: rest)) w1, Yield (b0 :: rest) next)
      else iter_body cfg net limit_each st w = Some (w1, Raised AttributeError)).
Proof.
  assert (Hinv : forall st w,
             reaches cfg net limit_each st w ->
             yielded_batches (log w) = [] -> last_first_id st = JNull).
  { intros st w Hr Hy.
    destruct (last_first_id st) eqn:E; [reflexivity| ..];
      exfalso; apply (remembered_id_after_yield _ _ _ _ _ Hr); auto;
      rewrite E; discriminate. }
  split; [|split; [exact Hinv|]].
  - intros st w w1 st' Hr Hb.
    apply iter_body_switch in Hb as (_ & Hid & _).
    now apply (remembered_id_after_yield _ _ _ _ _ Hr).
  - intros st w w1 r data b0 rest Hr Hy Hreq Hbody Hbatch.
    unfold iter_body, handle_batch. rewrite Hreq, Hbody, Hbatch.
    destruct (id_can_be_read b0) eqn:Eb.
    + destruct (first_id_of_readable b0 Eb) as [fid ->].
      rewrite (Hinv st w Hr Hy). cbn [Py.is_none negb andb].
      rewrite andb_false_r. cbn [andb].
      destruct (_ <? _); [eauto|]. destruct (use_page_mode st); eauto.
    + rewrite (first_id_of_unreadable b0 Eb). reflexivity.
Qed.

Lemma stall_needs_a_yielded_batch_witness :
  (exists next,
      iter_body cfg5 (finite_source [JNull; product 1; product 2]) 2 cursor0 world0
      = Some (emit (Yielded [JNull; product 1])
                   {| gets := 1; log := [Get (offset_request 2 0)] |},
              Yield [JNull; product 1] next))
  /\
  iter_body cfg5 (finite_source [JInt 7; product 1; product 2]) 2 cursor0 world0
  = Some ({| gets := 1; log := [Get (offset_request 2 0)] |},
          Raised AttributeError).
Proof.
  split.
  - apply (proj2 (proj2 (stall_needs_a_yielded_batch
                           cfg5 (finite_source [JNull; product 1; product 2]) 2))
             cursor0 world0 _
             {| status_code := 200; location := None;
                body := Some (JList [JNull; product 1]) |}
             (JList [JNull; product 1]) JNull [product 1]
             (reaches_start _ _ _) eq_refl eq_refl eq_refl eq_refl).
  - apply (proj2 (proj2 (stall_needs_a_yielded_batch
                           cfg5 (finite_source [JInt 7; product 1; product 2]) 2))
             cursor0 world0 _
             {| status_code := 200; location := None;
                body := Some (JList [JInt 7; product 1]) |}
             (JList [JInt 7; product 1]) (JInt 7) [product 1]
             (reaches_start _ _ _) eq_refl eq_refl eq_refl eq_refl).
Defined.

(** C1 (the code departs from it). Five records behind an API whose offset
    parameter has stopped working, two per page.  Page 1 is yielded, the
    request at offset 2 comes back with the same first id and is dropped,
    and the generator turns to page mode - but asks for page 3: the offset
    had already been advanced to 2 when the stall was seen, and
    [2 // 2 + 2 = 3].  Page 2 (records 3 and 4) is never requested. *)
Theorem stalled_source_resumes_at_page_3 :
  iter_products_batches cfg5 (stalled_source (map product [1; 2; 3; 4; 5])) 2 4
  = Some ({| gets := 3;
             log := [Get (offset_request 2 0);
                     Yielded [product 1; product 2];
                     Get (offset_request 2 2);
                     Get (page_request 2 3);
                     Yielded [product 5]] |},
          Ok tt).
Proof. reflexivity. Qed.

(* ===================================================================== *)
(** ** Draining a finite source *)
(* ===================================================================== *)

Lemma chunks_aux_enough {A} (L : nat) : (0 < L)%nat ->
  forall fuel (l : list A), (List.length l <= fuel)%nat ->
  chunks_aux fuel L l = chunks_aux (List.length l) L l.
Proof.
  intros HL. induction fuel as [fuel IH] using lt_wf_ind.
  intros l Hle. destruct l as [|a l].
  - destruct fuel; reflexivity.
  - cbn [List.length] in Hle. destruct fuel as [|fuel]; [lia|].
    cbn [chunks_aux List.length]. f_equal.
    assert (Hs : (List.length (skipn L (a :: l)) <= List.length l)%nat)
      by (rewrite length_skipn; cbn [List.length]; lia).
    rewrite (IH fuel) by lia.
    rewrite (IH (List.length l)) by lia. reflexivity.
Qed.

Lemma chunks_cons {A} (L : nat) (a : A) (l : list A) : (0 < L)%nat ->
  chunks L (a :: l) = firstn L (a :: l) :: chunks L (skipn L (a :: l)).
Proof.
  intros HL. unfold chunks. cbn [List.length chunks_aux]. f_equal.
  apply chunks_aux_enough; [assumption|].
  rewrite length_skipn. cbn [List.length]. lia.
Qed.

Lemma slice_length {A} start n (recs : list A) :
  (List.length (slice start n recs) <= Z.to_nat n)%nat.
Proof. unfold slice. rewrite length_firstn. lia. Qed.

Lemma slice_nonempty {A} start n (recs : list A) :
  slice start n recs <> [] -> 0 <= start ->
  start < Z.of_nat (List.length recs).
Proof.
  unfold slice. intros Hne Hs.
  destruct (Z_lt_le_dec start (Z.of_nat (List.length recs))) as [|Hge]; [assumption|].
  exfalso. apply Hne. rewrite skipn_all2 by lia. apply firstn_nil.
Qed.

Lemma slice_app {A} n (done todo : list A) :
  slice (Z.of_nat (List.length done)) n (done ++ todo) = firstn (Z.to_nat n) todo.
Proof.
  unfold slice. rewrite Nat2Z.id, skipn_app, skipn_all, Nat.sub_diag.
  reflexivity.
Qed.

Section FiniteSource.

Context {fl : Floats}.
Variable cfg : Config.
Variable recs : list json.
Variable limit_each : Z.
Hypothesis limit_pos : 0 < limit_each.

Let N : Z := Z.of_nat (List.length recs).
Let L : nat := Z.to_nat limit_each.

Lemma request_finite u ps w :
  _request_with_retry cfg (finite_source recs) u ps w
  = Some (after_get {| url := u; params := ps |} w,
          Ok {| status_code := 200; location := None;
                body := Some (JList (serve recs ps)) |}).
Proof. reflexivity. Qed.

Lemma iter_body_finite st w :
  iter_body cfg (finite_source recs) limit_each st w
  = Some (handle_batch limit_each st (after_get (request_of limit_each st) w)
                       (serve recs (request_params limit_each st))).
Proof. unfold iter_body. rewrite request_finite. reflexivity. Qed.

Lemma serve_offset st :
  use_page_mode st = false ->
  serve recs (request_params limit_each st) = slice (offset st) limit_each recs.
Proof. unfold serve, request_params. intros ->. reflexivity. Qed.

Lemma serve_page st :
  use_page_mode st = true ->
  serve recs (request_params limit_each st)
  = slice ((page st - 1) * limit_each) limit_each recs.
Proof. unfold serve, request_params. intros ->. reflexivity. Qed.

(** Page mode: every further pass moves one page on, and pages run out. *)
Lemma page_mode_terminates : forall fuel st w,
  use_page_mode st = true -> 1 <= page st ->
  (Z.to_nat (N - (page st - 1) * limit_each) < fuel)%nat ->
  exists out, iter_loop cfg (finite_source recs) limit_each fuel st w = Some out.
Proof.
  induction fuel as [|fuel IH]; intros st w Hm Hp Hfuel; [lia|].
  cbn [iter_loop]. rewrite iter_body_finite, (serve_page st Hm).
  destruct (handle_batch _ _ _ _) as [w2 out] eqn:Hh.
  destruct out as [|st'|b [st'|]|e]; eauto.
  - apply handle_batch_switch in Hh as (Hoff & _). congruence.
  - apply handle_batch_yield in Hh as (-> & Hne & Hnext).
    rewrite Hm in Hnext. destruct (_ <? _); [discriminate|].
    injection Hnext as ->.
    apply slice_nonempty in Hne; [|nia].
    apply IH; cbn [use_page_mode page]; [reflexivity|lia|].
    fold N in Hne. nia.
Qed.

(** Offset mode: the offset grows with every batch handed out; a stall
    leaves for page mode. *)
Lemma offset_mode_terminates : forall fuel st w,
  use_page_mode st = false -> 0 <= offset st ->
  (Z.to_nat (N - offset st) + Z.to_nat N + 1 < fuel)%nat ->
  exists out, iter_loop cfg (finite_source recs) limit_each fuel st w = Some out.
Proof.
  induction fuel as [|fuel IH]; intros st w Hm Hoff Hfuel; [lia|].
  cbn [iter_loop]. rewrite iter_body_finite, (serve_offset st Hm).
  destruct (handle_batch _ _ _ _) as [w2 out] eqn:Hh.
  destruct out as [|st'|b [st'|]|e]; eauto.
  - apply handle_batch_switch in Hh as (_ & _ & _ & ->).
    assert (0 <= offset st / limit_each) by (apply Z.div_pos; lia).
    apply page_mode_terminates; cbn [use_page_mode page]; [reflexivity|lia|].
    nia.
  - apply handle_batch_yield in Hh as (-> & Hne & Hnext).
    rewrite Hm in Hnext. destruct (_ <? _) eqn:El; [discriminate|].
    apply Z.ltb_ge in El.
    pose proof (slice_nonempty _ _ _ Hne Hoff) as Hlt. fold N in Hlt.
    destruct (slice (offset st) limit_each recs) as [|b0 rest] eqn:Es;
      [contradiction|].
    destruct (first_id_of b0); [|discriminate].
    injection Hnext as ->.
    apply IH; cbn [use_page_mode offset]; [reflexivity|lia|lia].
Qed.

Lemma finite_source_terminates :
  exists fuel out,
    iter_products_batches cfg (finite_source recs) limit_each fuel = Some out.
Proof.
  exists (S (S (Z.to_nat N + Z.to_nat N + 1))).
  apply offset_mode_terminates; cbn [cursor0 use_page_mode offset]; [reflexivity|lia|].
  rewrite Z.sub_0_r. lia.
Qed.

(** A batch that does not trip the stall test is yielded. *)
Lemma handle_batch_no_stall st w1 b0 rest fid :
  use_page_mode st = false ->
  first_id_of b0 = Ok fid ->
  Py.is_none (last_first_id st) || negb (Py.eqb fid (last_first_id st)) = true ->
  handle_batch limit_each st w1 (b0 :: rest)
  = (emit (Yielded (b0 :: rest)) w1,
     Yield (b0 :: rest)
           (if Z.of_nat (List.length (b0 :: rest)) <? limit_each then None
            else Some {| offset := offset st + Z.of_nat (List.length (b0 :: rest));
                         last_first_id := fid;
                         use_page_mode := false;
                         page := page st |})).
Proof.
  intros Hm Hf Hns. unfold handle_batch. rewrite Hf, Hm. cbn [negb andb].
  replace (negb (Py.is_none (last_first_id st)) && Py.eqb fid (last_first_id st))
    with false
    by (destruct (Py.is_none _), (Py.eqb _ _); cbn in Hns |- *; congruence).
  destruct (_ <? _); reflexivity.
Qed.

(** With no stall in sight the generator hands out the remaining records
    page by page and stops at the first page that is not full. *)
Lemma offset_mode_drains : forall fuel done todo lfi w,
  recs = done ++ todo ->
  (List.length todo < fuel)%nat ->
  heads_differ lfi (chunks L todo) = true ->
  exists w' evs,
    iter_loop cfg (finite_source recs) limit_each fuel
              (offset_cursor (Z.of_nat (List.length done)) lfi) w
    = Some (w', Ok tt)
    /\ log w' = log w ++ evs
    /\ yielded_batches evs = chunks L todo
    /\ ((List.length todo mod L <> 0)%nat ->
        exists evs' b, evs = evs' ++ [Yielded b]
                       /\ List.length b = (List.length todo mod L)%nat)
    /\ ((List.length todo mod L = 0)%nat ->
        (exists evs', evs = evs' ++ [Get (offset_request limit_each N)])
        /\ Forall (fun b => List.length b = L) (chunks L todo)).
Proof.
  assert (HL : (0 < L)%nat) by (unfold L; lia).
  assert (HlL : limit_each = Z.of_nat L) by (unfold L; lia).
  induction fuel as [|fuel IH]; intros done todo lfi w Hrecs Hfuel Hheads; [lia|].
  cbn [iter_loop]. rewrite iter_body_finite, serve_offset by reflexivity.
  cbn [offset_cursor offset].
  replace (slice (Z.of_nat (List.length done)) limit_each recs)
    with (firstn L todo) by (rewrite Hrecs; symmetry; apply slice_app).
  destruct todo as [|a todo'].
  - (* nothing left: the empty page ends the run *)
    rewrite firstn_nil. cbn [handle_batch].
    exists (after_get (request_of limit_each (offset_cursor (Z.of_nat (List.length done)) lfi)) w),
           [Get (offset_request limit_each N)].
    repeat split.
    + cbn [after_get log]. do 2 f_equal. unfold request_of, offset_request.
      cbn. unfold N. rewrite Hrecs, app_nil_r. reflexivity.
    + intros H. now rewrite Nat.Div0.mod_0_l in H.
    + exists []. reflexivity.
    + constructor.
  - (* a page with a first record *)
    rewrite (chunks_cons L a todo' HL) in Hheads |- *.
    set (todo := a :: todo') in *.
    set (batch := firstn L todo) in *.
    assert (Hb : exists rest, batch = a :: rest).
    { unfold batch, todo. destruct L; [lia|]. cbn [firstn]. eauto. }
    destruct Hb as [rest Hb].
    cbn [heads_differ] in Hheads. rewrite Hb in Hheads.
    destruct (first_id_of a) as [fid|] eqn:Hfid; [|discriminate].
    apply andb_prop in Hheads as [Hns Hheads].
    rewrite Hb, (handle_batch_no_stall _ _ a rest fid) by (assumption || reflexivity).
    rewrite <- Hb.
    destruct (Z.of_nat (List.length batch) <? limit_each) eqn:El.
    + (* under-full: the last page *)
      apply Z.ltb_lt in El.
      assert (Hlen : (List.length todo < L)%nat).
      { unfold batch in El. rewrite length_firstn in El. lia. }
      assert (Hall : batch = todo) by (apply firstn_all2; lia).
      assert (Hrest : skipn L todo = []) by (apply skipn_all2; lia).
      eexists _, [_; _]. repeat split.
      * cbn [emit after_get log]. rewrite <- app_assoc. reflexivity.
      * rewrite Hrest, Hall. reflexivity.
      * intros _. eexists [_], _. split; [reflexivity|].
        rewrite Hall. symmetry. apply Nat.mod_small. assumption.
      * rewrite Nat.mod_small in H by assumption.
        unfold todo in H. discriminate.
      * rewrite Nat.mod_small in H by assumption.
        unfold todo in H. discriminate.
    + (* a full page: go on from the next offset *)
      apply Z.ltb_ge in El.
      assert (Hlen : List.length batch = L).
      { unfold batch in El |- *. rewrite length_firstn in El |- *. lia. }
      assert (Hge : (L <= List.length todo)%nat).
      { unfold batch in Hlen. rewrite length_firstn in Hlen. lia. }
      destruct (IH (done ++ batch) (skipn L todo) fid
                   (emit (Yielded batch)
                         (after_get (request_of limit_each
                            (offset_cursor (Z.of_nat (List.length done)) lfi)) w)))
        as (w' & evs & Hrun & Hlog & Hy & Hlast & Hempty).
      * rewrite <- app_assoc. unfold batch. rewrite firstn_skipn. assumption.
      * rewrite length_skipn. lia.
      * assumption.
      * exists w', (Get (request_of limit_each (offset_cursor (Z.of_nat (List.length done)) lfi))
                   :: Yielded batch :: evs).
        assert (Hmod : (List.length (skipn L todo) mod L
                        = List.length todo mod L)%nat).
        { rewrite length_skipn.
          replace (List.length todo) with (List.length todo - L + 1 * L)%nat at 2 by lia.
          now rewrite Nat.Div0.mod_add. }
        rewrite Hmod in Hlast, Hempty.
        repeat split.
        -- rewrite <- Hrun. f_equal. unfold offset_cursor. cbn [offset page].
           f_equal. rewrite length_app. lia.
        -- rewrite Hlog. cbn [emit after_get log]. rewrite <- !app_assoc.
           reflexivity.
        -- cbn [yielded_batches flat_map app]. f_equal. exact Hy.
        -- intros H. destruct (Hlast H) as (evs' & b & -> & Hbl).
           exists (Get (request_of limit_each (offset_cursor (Z.of_nat (List.length done)) lfi))
                     :: Yielded batch :: evs'), b.
           split; [reflexivity|assumption].
        -- destruct (Hempty H) as [[evs' ->] _].
           exists (Get (request_of limit_each (offset_cursor (Z.of_nat (List.length done)) lfi))
                     :: Yielded batch :: evs').
           reflexivity.
        -- constructor; [assumption|]. now apply Hempty.
Qed.

End FiniteSource.

(** Against a finite source that answers with bare lists the generator
    always comes to an end.  When no stall is detected (no two consecutive
    pages begin with the same non-null id) it ends normally, having yielded
    the records page by page: the last batch yielded is shorter than the
    limit, unless the number of records is a multiple of the limit, in
    which case every batch yielded is full and the run ends on the request
    answered by the first empty batch.  In either pagination state a
    yielded batch shorter than the limit is the last. *)
Lemma bare_list_source_is_drained {fl : Floats} cfg recs limit_each :
  0 < limit_each ->
  let L := Z.to_nat limit_each in
  let N := Z.of_nat (List.length recs) in
  (exists fuel out,
      iter_products_batches cfg (finite_source recs) limit_each fuel = Some out)
  /\
  (no_stall_detected L recs = true ->
   exists fuel w,
     iter_products_batches cfg (finite_source recs) limit_each fuel = Some (w, Ok tt)
     /\ yielded_batches (log w) = chunks L recs
     /\ ((List.length recs mod L <> 0)%nat ->
         exists evs b, log w = evs ++ [Yielded b]
                       /\ List.length b = (List.length recs mod L)%nat
                       /\ Z.of_nat (List.length b) < limit_each)
     /\ ((List.length recs mod L = 0)%nat ->
         (exists evs, log w = evs ++ [Get (offset_request limit_each N)])
         /\ serve recs (params (offset_request limit_each N)) = []
         /\ Forall (fun b => List.length b = L) (yielded_batches (log w))))
  /\
  (forall net st w w1 b next,
      iter_body cfg net limit_each st w = Some (w1, Yield b next) ->
      Z.of_nat (List.length b) < limit_each -> next = None).
Proof.
  intros Hl L N. split; [|split].
  - now apply finite_source_terminates.
  - intros Hns.
    destruct (offset_mode_drains cfg recs limit_each Hl (S (List.length recs))
                                 [] recs JNull world0 eq_refl ltac:(lia) Hns)
      as (w & evs & Hrun & Hlog & Hy & Hlast & Hempty).
    cbn [log world0 app] in Hlog. subst evs.
    exists (S (List.length recs)), w. split; [exact Hrun|]. split; [exact Hy|].
    split.
    + intros H. destruct (Hlast H) as (evs' & b & -> & Hb).
      exists evs', b. repeat split; auto.
      rewrite Hb. pose proof (Nat.mod_upper_bound (List.length recs) L).
      unfold L in *. lia.
    + intros H. destruct (Hempty H) as [Hget Hfull].
      split; [exact Hget|]. split; [|now rewrite Hy].
      unfold serve, offset_request, slice. cbn.
      unfold N. rewrite Nat2Z.id, skipn_all. apply firstn_nil.
  - intros net st w w1 b next Hb Hlt.
    apply iter_body_yield in Hb as [_ ->].
    apply Z.ltb_lt in Hlt. now rewrite Hlt.
Qed.

Lemma bare_list_source_is_drained_witness :
  exists fuel w,
    iter_products_batches cfg5 (finite_source (map product [1; 2; 3; 4; 5])) 2 fuel
    = Some (w, Ok tt)
    /\ yielded_batches (log w)
       = [[product 1; product 2]; [product 3; product 4]; [product 5]]
    /\ exists evs, log w = evs ++ [Yielded [product 5]].
Proof.
  destruct (proj1 (proj2 (bare_list_source_is_drained
                            cfg5 (map product [1; 2; 3; 4; 5]) 2 ltac:(lia)))
                  eq_refl)
    as (fuel & w & Hrun & Hy & Hlast & _).
  exists fuel, w. split; [exact Hrun|]. split; [exact Hy|].
  destruct (Hlast ltac:(discriminate)) as (evs & b & Hlog & Hb & _).
  exists evs. rewrite Hlog. do 2 f_equal.
  assert (Hyb : yielded_batches (log w) = yielded_batches evs ++ [b])
    by (rewrite Hlog, yielded_batches_app; reflexivity).
  rewrite Hy in Hyb. cbn in Hyb.
  destruct (yielded_batches evs) as [|y1 [|y2 [|y3 ys]]]; cbn in Hyb;
    try discriminate.
  - injection Hyb as _ _ <-. reflexivity.
  - injection Hyb as _ _ _ Hnil. destruct ys; discriminate.
Defined.


(** *** A finite source behind an envelope *)

Section EnvelopedSource.

Context {fl : Floats}.
Variable cfg : Config.
Variable recs : list json.
Variable limit_each : Z.

Lemma iter_body_enveloped st w :
  iter_body cfg (enveloped_source recs) limit_each st w
  = Some (handle_batch limit_each st (after_get (request_of limit_each st) w)
                       (extract_batch (envelope (serve recs (request_params limit_each st))))).
Proof. reflexivity. Qed.

(** Line 121: an envelope whose list is empty is itself taken for the one
    record of the batch. *)
Lemma extract_batch_empty_envelope :
  extract_batch (envelope []) = [envelope []].
Proof. reflexivity. Qed.

Lemma extract_batch_envelope b0 rest :
  extract_batch (envelope (b0 :: rest)) = b0 :: rest.
Proof. reflexivity. Qed.

(** Past the end of the records, with one record asked for per request:
    the empty envelope is yielded as a full batch and the generator moves
    on to the next offset. *)
Lemma past_the_end_one_by_one st w :
  limit_each = 1 ->
  use_page_mode st = false ->
  Z.of_nat (List.length recs) <= offset st ->
  Py.is_none (last_first_id st) || negb (Py.eqb JNull (last_first_id st)) = true ->
  iter_body cfg (enveloped_source recs) limit_each st w
  = Some (emit (Yielded [envelope []]) (after_get (request_of limit_each st) w),
          Yield [envelope []]
                (Some {| offset := offset st + 1; last_first_id := JNull;
                         use_page_mode := false; page := page st |})).
Proof.
  intros Hl Hm Hoff Hns. rewrite iter_body_enveloped.
  replace (serve recs (request_params limit_each st)) with (@nil json).
  - rewrite extract_batch_empty_envelope.
    rewrite (handle_batch_no_stall limit_each st _ (envelope []) [] JNull Hm eq_refl Hns).
    subst limit_each. reflexivity.
  - unfold serve, request_params. rewrite Hm. cbn. unfold slice.
    rewrite skipn_all2 by lia. now rewrite firstn_nil.
Qed.

Lemma never_past_the_end : forall fuel st w,
  limit_each = 1 ->
  use_page_mode st = false ->
  Z.of_nat (List.length recs) <= offset st ->
  Py.is_none (last_first_id st) || negb (Py.eqb JNull (last_first_id st)) = true ->
  iter_loop cfg (enveloped_source recs) limit_each fuel st w = None.
Proof.
  induction fuel as [|fuel IH]; intros st w Hl Hm Hoff Hns; [reflexivity|].
  cbn [iter_loop]. rewrite past_the_end_one_by_one by assumption.
  apply IH; cbn [use_page_mode offset last_first_id]; auto; lia.
Qed.

End EnvelopedSource.

(** C6 (the code departs from it). Three finite sources on which the run
    does not end as the claim says.
    - Bare lists, three records, the third bearing the id of the first, two
      per page: the under-full last page is taken for a stall and dropped,
      the generator asks for page 3, past the end, and the run ends after a
      full batch although 3 is no multiple of 2.
    - The same kind of source answering with [{"product": [...]}], four
      records, two per page: the answer past the end, [{"product": []}],
      is yielded as a third batch of one record, although 4 is a multiple
      of 2.
    - That source with one record per page: the empty envelope is a full
      batch, so it is yielded again and again and the run never ends. *)
Theorem finite_source_is_not_always_drained :
  iter_products_batches cfg5 (finite_source (map product [1; 2; 1])) 2 3
  = Some ({| gets := 3;
             log := [Get (offset_request 2 0);
                     Yielded [product 1; product 2];
                     Get (offset_request 2 2);
                     Get (page_request 2 3)] |},
          Ok tt)
  /\
  iter_products_batches cfg5 (enveloped_source (map product [1; 2; 3; 4])) 2 3
  = Some ({| gets := 3;
             log := [Get (offset_request 2 0);
                     Yielded [product 1; product 2];
                     Get (offset_request 2 2);
                     Yielded [product 3; product 4];
                     Get (offset_request 2 4);
                     Yielded [envelope []]] |},
          Ok tt)
  /\
  (forall fuel,
      iter_products_batches cfg5 (enveloped_source (map product [1; 2])) 1 fuel
      = None)
  /\
  (forall n, exists st w,
      reaches cfg5 (enveloped_source (map product [1; 2])) 1 st w
      /\ yielded_batches (log w)
         = [product 1] :: [product 2] :: repeat [envelope []] n).
Proof.
  split; [reflexivity|]. split; [reflexivity|]. split.
  - intros [|[|fuel]]; [reflexivity|reflexivity|].
    change (iter_loop cfg5 (enveloped_source (map product [1; 2])) 1 fuel
              (offset_cursor 2 (JInt 2))
              {| gets := 2;
                 log := [Get (offset_request 1 0); Yielded [product 1];
                         Get (offset_request 1 1); Yielded [product 2]] |}
            = None).
    apply never_past_the_end; cbn; auto; lia.
  - assert (H : forall n, exists st w,
               reaches cfg5 (enveloped_source (map product [1; 2])) 1 st w
               /\ yielded_batches (log w)
                  = [product 1] :: [product 2] :: repeat [envelope []] n
               /\ use_page_mode st = false /\ 2 <= offset st
               /\ Py.is_none (last_first_id st)
                  || negb (Py.eqb JNull (last_first_id st)) = true).
    { induction n as [|n (st & w & Hr & Hy & Hm & Hoff & Hns)].
      - eexists _, _. split.
        + eapply reaches_yield; [eapply reaches_yield; [apply reaches_start|]|];
            reflexivity.
        + cbn. repeat split; (reflexivity || lia).
      - eexists _, _. split.
        + eapply reaches_yield; [exact Hr|].
          apply past_the_end_one_by_one; cbn; auto; lia.
        + cbn [emit log after_get offset use_page_mode last_first_id].
          rewrite <- app_assoc, !yielded_batches_app, Hy. cbn.
          split; [|repeat split; (reflexivity || lia)].
          do 2 f_equal. change ([envelope []] :: repeat [envelope []] n)
            with (repeat [envelope []] (S n)).
          rewrite <- repeat_cons. reflexivity. }
    intros n. destruct (H n) as (st & w & Hr & Hy & _). eauto.
Qed.

(* ===================================================================== *)
(** ** Facts about text cleaning *)
(* ===================================================================== *)











Section TextFacts.

Variable repr : json -> string.






End TextFacts.



(** C7 (the code departs from it). A single cart mapping without a truthy
    [vendor] makes [_join_carts] die on the unbound name [c] instead of
    falling back to [channel]; the same mapping inside a list gives
    "amazon:main". *)
Theorem join_carts_single_mapping_raises repr :
  _join_carts repr (JDict [("channel", JStr "amazon"); ("name", JStr "main")])
  = Raise UnboundLocalError
  /\ _join_carts repr (JList [JDict [("channel", JStr "amazon"); ("name", JStr "main")]])
     = Ok "amazon:main"
  /\ base_product_cols repr
       [("id", JInt 1);
        ("carts", JDict [("channel", JStr "amazon"); ("name", JStr "main")])]
     = Raise UnboundLocalError.
Proof. repeat split. Qed.

(* ===================================================================== *)
(** ** Facts about the cleaning stage *)
(* ===================================================================== *)

Lemma assoc_set_assoc {A} c c' (v : A) d :
  Py.assoc c (set_assoc c' v d)
  = if String.eqb c c' then Some v else Py.assoc c d.
Proof.
  induction d as [|[k w] d IH]; cbn [set_assoc Py.assoc].
  - destruct (String.eqb c c'); reflexivity.
  - destruct (String.eqb c' k) eqn:E; cbn [Py.assoc].
    + apply String.eqb_eq in E. subst k. destruct (String.eqb c c'); reflexivity.
    + rewrite IH. destruct (String.eqb c k) eqn:E'; [|reflexivity].
      apply String.eqb_eq in E'. subst k.
      rewrite String.eqb_sym in E. rewrite E. reflexivity.
Qed.

Lemma assoc_tabulate {A} c (g : string -> A) target :
  Py.assoc c (map (fun k => (k, g k)) target)
  = if existsb (String.eqb c) target then Some (g c) else None.
Proof.
  induction target as [|k target IH]; cbn [map Py.assoc existsb]; [reflexivity|].
  destruct (String.eqb c k) eqn:E; cbn [orb]; [|exact IH].
  apply String.eqb_eq in E. now subst k.
Qed.

Lemma existsb_eqb_In c cs : existsb (String.eqb c) cs = true <-> In c cs.
Proof.
  rewrite existsb_exists. split.
  - intros (k & Hin & ->%String.eqb_eq). exact Hin.
  - intros Hin. exists c. split; [exact Hin|apply String.eqb_refl].
Qed.

Section FrameFacts.

Variable X : Type.

Lemma columns_reindex target (df : DataFrame X) :
  columns (reindex target df) = target.
Proof.
  unfold columns, reindex. cbn [cols]. rewrite map_map. cbn [fst]. apply map_id.
Qed.

Lemma getcol_reindex c target (df : DataFrame X) :
  getcol c (reindex target df)
  = if existsb (String.eqb c) target
    then Some (match getcol c df with
               | Some col => col
               | None => repeat NaN (index_len df)
               end)
    else None.
Proof.
  unfold getcol at 1, reindex. cbn [cols].
  apply (assoc_tabulate c (fun k => match getcol k df with
                                    | Some col => col
                                    | None => repeat NaN (index_len df)
                                    end)).
Qed.

Lemma getcol_setcol c c' col (df : DataFrame X) :
  getcol c (setcol c' col df)
  = if String.eqb c c' then Some col else getcol c df.
Proof. apply assoc_set_assoc. Qed.

Lemma well_formed_getcol c col (df : DataFrame X) :
  well_formed df -> getcol c df = Some col -> List.length col = index_len df.
Proof.
  unfold well_formed, getcol. induction (cols df) as [|[k w] d IH]; [discriminate|].
  intros Hwf. inversion Hwf as [|? ? Hk Hd]; subst. cbn [Py.assoc].
  destruct (String.eqb c k); [intros [= <-]; exact Hk|auto].
Qed.

Lemma empty_no_rows c col (df : DataFrame X) :
  well_formed df -> getcol c df = Some col -> empty df = true -> col = [].
Proof.
  intros Hwf Hc He. pose proof (well_formed_getcol c col df Hwf Hc) as Hlen.
  unfold empty in He. apply orb_true_iff in He as [He|He].
  - apply Nat.eqb_eq in He. rewrite He in Hlen. now destruct col.
  - apply Nat.eqb_eq in He. unfold getcol in Hc.
    destruct (cols df); [discriminate Hc|discriminate He].
Qed.

End FrameFacts.

Arguments getcol_reindex {X} c target df.
Arguments columns_reindex {X} target df.

Section CleaningFacts.

Variable pd : Pandas.

Let series : Type := list (cell (float64 pd)).
Let frame : Type := DataFrame (float64 pd).

Lemma when_present_index_len f c (df df' : frame) :
  when_present pd f c df = Ok df' -> index_len df' = index_len df.
Proof.
  unfold when_present. destruct (getcol c df); [|now intros [= <-]].
  destruct (f _); [|discriminate]. now intros [= <-].
Qed.

Lemma for_each_index_len cs f : forall (df df' : frame),
  for_each pd cs f df = Ok df' -> index_len df' = index_len df.
Proof.
  induction cs as [|c cs IH]; intros df df'; cbn [for_each]; [now intros [= <-]|].
  destruct (when_present pd f c df) as [df1|] eqn:E; [|discriminate].
  cbn [bind]. intros H%IH. rewrite H. eapply when_present_index_len; eauto.
Qed.

(** A loop over [cs] leaves the other columns alone. *)
Lemma for_each_untouched c cs f : ~ In c cs -> forall (df df' : frame),
  for_each pd cs f df = Ok df' -> getcol c df' = getcol c df.
Proof.
  induction cs as [|c0 cs IH]; intros Hnin df df'; cbn [for_each];
    [now intros [= <-]|].
  assert (Hc : String.eqb c c0 = false)
    by (apply String.eqb_neq; intros ->; apply Hnin; now left).
  unfold when_present. destruct (getcol c0 df) as [col0|].
  - destruct (f col0) as [col0'|]; [|discriminate]. cbn [bind].
    intros H%IH; [|intros ?; apply Hnin; now right].
    rewrite H, getcol_setcol, Hc. reflexivity.
  - cbn [bind]. apply IH. intros ?; apply Hnin; now right.
Qed.

(** It does not create columns. *)
Lemma for_each_absent c cs f : forall (df df' : frame),
  for_each pd cs f df = Ok df' -> getcol c df = None -> getcol c df' = None.
Proof.
  induction cs as [|c0 cs IH]; intros df df'; cbn [for_each];
    [now intros [= <-]|].
  unfold when_present. destruct (getcol c0 df) as [col0|] eqn:E0.
  - destruct (f col0) as [col0'|]; [|discriminate]. cbn [bind].
    intros H Hn. apply (IH _ _ H). rewrite getcol_setcol.
    destruct (String.eqb c c0) eqn:Ec; [|exact Hn].
    apply String.eqb_eq in Ec. congruence.
  - cbn [bind]. apply IH.
Qed.

(** A column named in [cs] and present in the frame has been converted by
    [f], once. *)
Lemma for_each_touched c cs f : NoDup cs -> In c cs -> forall (df df' : frame) col,
  for_each pd cs f df = Ok df' -> getcol c df = Some col ->
  exists col', f col = Ok col' /\ getcol c df' = Some col'.
Proof.
  induction 1 as [|c0 cs Hnin Hnd IH]; intros Hin df df' col; [contradiction|].
  cbn [for_each]. unfold when_present.
  destruct Hin as [->|Hin].
  - intros H Hc. rewrite Hc in H. destruct (f col) as [col'|]; [|discriminate].
    cbn [bind] in H. exists col'. split; [reflexivity|].
    rewrite (for_each_untouched c cs f Hnin _ _ H), getcol_setcol, String.eqb_refl.
    reflexivity.
  - assert (Hc0 : String.eqb c c0 = false)
      by (apply String.eqb_neq; intros ->; contradiction).
    destruct (getcol c0 df) as [col0|].
    + destruct (f col0) as [col0'|]; [|discriminate]. cbn [bind].
      intros H Hc. apply (IH Hin _ _ _ H). now rewrite getcol_setcol, Hc0.
    + cbn [bind]. apply IH. exact Hin.
Qed.

(** The loop returns as soon as [f] does on the columns it is to convert. *)
Lemma for_each_returns cs f : NoDup cs -> forall (df : frame),
  (forall c col, In c cs -> getcol c df = Some col -> exists col', f col = Ok col') ->
  exists df', for_each pd cs f df = Ok df'.
Proof.
  induction 1 as [|c0 cs Hnin Hnd IH]; intros df Hf; cbn [for_each]; [eauto|].
  unfold when_present. destruct (getcol c0 df) as [col0|] eqn:E0.
  - destruct (Hf c0 col0 (or_introl eq_refl) E0) as [col0' ->]. cbn [bind].
    apply IH. intros c col Hin Hc. apply (Hf c col (or_intror Hin)).
    rewrite getcol_setcol in Hc.
    destruct (String.eqb c c0) eqn:Ec; [|exact Hc].
    apply String.eqb_eq in Ec. subst c0. contradiction.
  - cbn [bind]. apply IH. intros c col Hin. apply Hf. now right.
Qed.

Lemma when_present_for_each f c (df : frame) :
  when_present pd f c df = for_each pd [c] f df.
Proof. cbn [for_each]. destruct (when_present pd f c df); reflexivity. Qed.

(** The quantity rule, cell by cell: whatever comes out is an integer, and
    an object that does not parse comes out as what the filled-in zero is
    cast to. *)
Lemma quantity_rule_cells : forall (s s' : series),
  quantity_rule pd s = Ok s' ->
  Forall2 (fun c c' =>
             (exists z, c' = Int64 z)
             /\ (forall v, c = Obj v -> numeric_of pd v = None ->
                 exists z, as_int64 pd (round_to pd 0 (zero pd)) = Some z
                           /\ c' = Int64 z))
          s s'.
Proof.
  unfold quantity_rule, astype_Int64.
  induction s as [|c s IH]; intros s'; cbn [to_numeric fillna_0 round map mapM].
  - intros [= <-]. constructor.
  - destruct (cell_Int64 pd _) as [c'|] eqn:Ec; [|discriminate]. cbn [bind].
    fold (to_numeric pd s). fold (fillna_0 pd (to_numeric pd s)).
    fold (round pd 0 (fillna_0 pd (to_numeric pd s))).
    destruct (mapM _ _) as [s''|] eqn:Es; [|discriminate]. cbn [bind].
    intros [= <-]. constructor; [|now apply IH].
    destruct c as [v| |x|z| |ns| |b]; cbn in Ec.
    + destruct (numeric_of pd v) as [x|] eqn:En; cbn in Ec.
      * destruct (as_int64 pd (round_to pd 0 x)) as [z|]; [|discriminate].
        injection Ec as <-. split; [eauto|]. intros v' [= <-] Hn. congruence.
      * destruct (as_int64 pd (round_to pd 0 (zero pd))) as [z|] eqn:Ez; [|discriminate].
        injection Ec as <-. split; [eauto|]. intros _ _ _. eauto.
    + destruct (as_int64 pd (round_to pd 0 (zero pd))) as [z|]; [|discriminate].
      injection Ec as <-. split; [eauto|discriminate].
    + destruct (as_int64 pd (round_to pd 0 x)) as [z|]; [|discriminate].
      injection Ec as <-. split; [eauto|discriminate].
    + injection Ec as <-. split; [eauto|discriminate].
    + injection Ec as <-. split; [eauto|discriminate].
    + discriminate.
    + discriminate.
    + injection Ec as <-. split; [eauto|discriminate].
Qed.

(** A column of values that do not parse is converted without an
    exception, into zeros. *)
Lemma quantity_rule_unparsable (s : series) :
  as_int64 pd (round_to pd 0 (zero pd)) = Some 0 ->
  Forall (fun c => exists v, c = Obj v /\ numeric_of pd v = None) s ->
  quantity_rule pd s = Ok (map (fun _ => Int64 0) s).
Proof.
  intros Hzero. unfold quantity_rule, astype_Int64.
  induction 1 as [|c s (v & -> & Hv) _ IH]; [reflexivity|].
  cbn [to_numeric fillna_0 round map mapM]. rewrite Hv.
  cbn [cell_Int64]. rewrite Hzero. cbn [bind].
  fold (to_numeric pd s). fold (fillna_0 pd (to_numeric pd s)).
  fold (round pd 0 (fillna_0 pd (to_numeric pd s))).
  rewrite IH. reflexivity.
Qed.

End CleaningFacts.

Example clean_products_example :
  clean_products_df simple_pandas
    {| index_len := 2;
       cols := [("TOTAL_ON_HAND", [Obj (JStr "abc"); Obj (JStr "12")]);
                ("SKU", [Obj (JStr "A-1"); Obj JNull]);
                ("TO_BE_SHIPPED", [Obj JNull; Obj (JFloat (5 # 2))])] |}
  = Ok (reindex PRODUCT_TARGET_COLS
          {| index_len := 2;
             cols := [("TOTAL_ON_HAND", [Int64 0; Int64 12]);
                      ("SKU", [Obj (JStr "A-1"); Obj JNull]);
                      ("TO_BE_SHIPPED", [Int64 0; Int64 2])] |}).
Proof. vm_compute. reflexivity. Qed.

Ltac distinct_names :=
  repeat (constructor; [cbn; intuition discriminate|]); constructor.

Lemma Forall2_nth_error_l {A B} (P : A -> B -> Prop) l l' :
  Forall2 P l l' ->
  forall i a, nth_error l i = Some a ->
  exists b, nth_error l' i = Some b /\ P a b.
Proof.
  induction 1 as [|a0 b0 l l' Hab Hl IH]; intros i a.
  - destruct i; discriminate.
  - destruct i as [|i]; cbn [nth_error].
    + intros [= <-]. eauto.
    + apply IH.
Qed.

Lemma product_quantity_names c :
  In c PRODUCT_QTY_COLS ->
  ~ In c ["UPDATED"] /\ ~ In c ["PRICE"; "COST"]
  /\ ~ In c ["HEIGHT"; "WEIGHT"; "WIDTH"; "PRODUCT_ID"]
  /\ existsb (String.eqb c) PRODUCT_TARGET_COLS = true.
Proof.
  cbn [PRODUCT_QTY_COLS In]. intros H.
  repeat (destruct H as [<-|H];
          [split; [|split; [|split]];
           solve [reflexivity | cbn; intuition discriminate]|]).
  contradiction.
Qed.

Lemma warehouse_quantity_names c :
  In c (WAREHOUSE_QTY_COLS ++ ["PRODUCT_ID"; "WH_ID"]) ->
  ~ In c ["UPDATED"; "WH_UPDATED"; "WH_CREATED"; "WH_LAST_CHANGE"]
  /\ ~ In c ["PRICE"; "COST"]
  /\ ~ In c ["HEIGHT"; "WEIGHT"; "WIDTH"]
  /\ ~ In c ["WH_SHIP_CFG"; "WH_IS_DEFAULT"]
  /\ existsb (String.eqb c) WAREHOUSE_TARGET_COLS = true.
Proof.
  cbn [WAREHOUSE_QTY_COLS app In]. intros H.
  repeat (destruct H as [<-|H];
          [split; [|split; [|split; [|split]]];
           solve [reflexivity | cbn; intuition discriminate]|]).
  contradiction.
Qed.

Section Conformance.

Variable pd : Pandas.

Let frame : Type := DataFrame (float64 pd).

Lemma quantity_rule_integers s s' :
  quantity_rule pd s = Ok s' ->
  List.length s' = List.length s
  /\ Forall (fun x => is_null x = false /\ exists z, x = Int64 z) s'.
Proof.
  intros H%quantity_rule_cells. split.
  - symmetry. eapply Forall2_length; eauto.
  - induction H as [|c c' s s' [[z ->] _] _ IH]; constructor; eauto.
Qed.

Lemma clean_products_df_steps (df out : frame) :
  clean_products_df pd df = Ok out -> empty df = false ->
  exists df1 df2 df3 df4,
    for_each pd ["UPDATED"] (datetime_rule pd) df = Ok df1
    /\ for_each pd ["PRICE"; "COST"] (money_rule pd) df1 = Ok df2
    /\ for_each pd PRODUCT_QTY_COLS (quantity_rule pd) df2 = Ok df3
    /\ for_each pd ["HEIGHT"; "WEIGHT"; "WIDTH"; "PRODUCT_ID"] (numeric_rule pd) df3 = Ok df4
    /\ out = reindex PRODUCT_TARGET_COLS df4.
Proof.
  unfold clean_products_df. intros H He. rewrite He, when_present_for_each in H.
  destruct (for_each pd ["UPDATED"] _ df) as [df1|] eqn:H1; [|discriminate].
  cbn [bind] in H.
  destruct (for_each pd ["PRICE"; "COST"] _ df1) as [df2|] eqn:H2; [|discriminate].
  cbn [bind] in H.
  destruct (for_each pd PRODUCT_QTY_COLS _ df2) as [df3|] eqn:H3; [|discriminate].
  cbn [bind] in H.
  destruct (for_each pd ["HEIGHT"; "WEIGHT"; "WIDTH"; "PRODUCT_ID"] _ df3)
    as [df4|] eqn:H4; [|discriminate].
  cbn [bind] in H. injection H as <-.
  exists df1, df2, df3, df4. auto.
Qed.

Lemma clean_wh_df_steps (df out : frame) :
  clean_wh_df pd df = Ok out -> empty df = false ->
  exists df1 df2 df3 df4 df5,
    for_each pd ["UPDATED"; "WH_UPDATED"; "WH_CREATED"; "WH_LAST_CHANGE"]
             (datetime_rule pd) df = Ok df1
    /\ for_each pd ["PRICE"; "COST"] (money_rule pd) df1 = Ok df2
    /\ for_each pd (WAREHOUSE_QTY_COLS ++ ["PRODUCT_ID"; "WH_ID"])
                (quantity_rule pd) df2 = Ok df3
    /\ for_each pd ["HEIGHT"; "WEIGHT"; "WIDTH"] (numeric_rule pd) df3 = Ok df4
    /\ for_each pd ["WH_SHIP_CFG"; "WH_IS_DEFAULT"] (astype_boolean pd) df4 = Ok df5
    /\ out = reindex WAREHOUSE_TARGET_COLS df5.
Proof.
  unfold clean_wh_df. intros H He. rewrite He in H.
  destruct (for_each pd ["UPDATED"; _; _; _] _ df) as [df1|] eqn:H1; [|discriminate].
  cbn [bind] in H.
  destruct (for_each pd ["PRICE"; "COST"] _ df1) as [df2|] eqn:H2; [|discriminate].
  cbn [bind] in H.
  destruct (for_each pd (WAREHOUSE_QTY_COLS ++ _) _ df2) as [df3|] eqn:H3; [|discriminate].
  cbn [bind] in H.
  destruct (for_each pd ["HEIGHT"; "WEIGHT"; "WIDTH"] _ df3) as [df4|] eqn:H4; [|discriminate].
  cbn [bind] in H.
  destruct (for_each pd ["WH_SHIP_CFG"; "WH_IS_DEFAULT"] _ df4) as [df5|] eqn:H5; [|discriminate].
  cbn [bind] in H. injection H as <-.
  exists df1, df2, df3, df4, df5. auto 10.
Qed.

(** A quantity column of a non-empty product frame goes through the
    quantity rule and through nothing else; one that is not there is made
    up of NaN by the final [reindex]. *)
Lemma products_quantity_column (df out : frame) c :
  clean_products_df pd df = Ok out -> empty df = false ->
  In c PRODUCT_QTY_COLS ->
  match getcol c df with
  | Some col => exists col', quantity_rule pd col = Ok col' /\ getcol c out = Some col'
  | None => getcol c out = Some (repeat NaN (index_len df))
  end.
Proof.
  intros H He Hin.
  destruct (clean_products_df_steps df out H He)
    as (df1 & df2 & df3 & df4 & H1 & H2 & H3 & H4 & ->).
  destruct (product_quantity_names c Hin) as (N1 & N2 & N4 & Ht).
  rewrite getcol_reindex, Ht.
  rewrite (for_each_index_len pd _ _ _ _ H4), (for_each_index_len pd _ _ _ _ H3),
    (for_each_index_len pd _ _ _ _ H2), (for_each_index_len pd _ _ _ _ H1).
  rewrite (for_each_untouched pd c _ _ N4 _ _ H4).
  destruct (getcol c df) as [col|] eqn:Hc.
  - rewrite <- (for_each_untouched pd c _ _ N1 _ _ H1) in Hc.
    rewrite <- (for_each_untouched pd c _ _ N2 _ _ H2) in Hc.
    assert (Hnd : NoDup PRODUCT_QTY_COLS) by distinct_names.
    destruct (for_each_touched pd c _ _ Hnd Hin _ _ _ H3 Hc) as (col' & Hq & Hc3).
    exists col'. rewrite Hc3. auto.
  - apply (for_each_absent pd c _ _ _ _ H1) in Hc.
    apply (for_each_absent pd c _ _ _ _ H2) in Hc.
    apply (for_each_absent pd c _ _ _ _ H3) in Hc.
    rewrite Hc. reflexivity.
Qed.

Lemma warehouse_quantity_column (df out : frame) c :
  clean_wh_df pd df = Ok out -> empty df = false ->
  In c (WAREHOUSE_QTY_COLS ++ ["PRODUCT_ID"; "WH_ID"]) ->
  match getcol c df with
  | Some col => exists col', quantity_rule pd col = Ok col' /\ getcol c out = Some col'
  | None => getcol c out = Some (repeat NaN (index_len df))
  end.
Proof.
  intros H He Hin.
  destruct (clean_wh_df_steps df out H He)
    as (df1 & df2 & df3 & df4 & df5 & H1 & H2 & H3 & H4 & H5 & ->).
  destruct (warehouse_quantity_names c Hin) as (N1 & N2 & N4 & N5 & Ht).
  rewrite getcol_reindex, Ht.
  rewrite (for_each_index_len pd _ _ _ _ H5),
    (for_each_index_len pd _ _ _ _ H4), (for_each_index_len pd _ _ _ _ H3),
    (for_each_index_len pd _ _ _ _ H2), (for_each_index_len pd _ _ _ _ H1).
  rewrite (for_each_untouched pd c _ _ N5 _ _ H5).
  rewrite (for_each_untouched pd c _ _ N4 _ _ H4).
  destruct (getcol c df) as [col|] eqn:Hc.
  - rewrite <- (for_each_untouched pd c _ _ N1 _ _ H1) in Hc.
    rewrite <- (for_each_untouched pd c _ _ N2 _ _ H2) in Hc.
    assert (Hnd : NoDup (WAREHOUSE_QTY_COLS ++ ["PRODUCT_ID"; "WH_ID"]))
      by distinct_names.
    destruct (for_each_touched pd c _ _ Hnd Hin _ _ _ H3 Hc) as (col' & Hq & Hc3).
    exists col'. rewrite Hc3. auto.
  - apply (for_each_absent pd c _ _ _ _ H1) in Hc.
    apply (for_each_absent pd c _ _ _ _ H2) in Hc.
    apply (for_each_absent pd c _ _ _ _ H3) in Hc.
    rewrite Hc. reflexivity.
Qed.

(** The cleaning returns unless a conversion raises on a column of the
    input: time stamps and quantities for products ... *)
Lemma clean_products_df_returns (df : frame) :
  (forall col, getcol "UPDATED" df = Some col ->
               exists s, datetime_rule pd col = Ok s) ->
  (forall c col, In c PRODUCT_QTY_COLS -> getcol c df = Some col ->
                 exists s, quantity_rule pd col = Ok s) ->
  exists out, clean_products_df pd df = Ok out.
Proof.
  intros Hdt Hq. unfold clean_products_df.
  destruct (empty df); [eauto|]. rewrite when_present_for_each.
  destruct (for_each_returns pd ["UPDATED"] (datetime_rule pd)
              ltac:(distinct_names) df) as [df1 H1].
  { intros c col [<-|[]]. apply Hdt. }
  rewrite H1. cbn [bind].
  destruct (for_each_returns pd ["PRICE"; "COST"] (money_rule pd)
              ltac:(distinct_names) df1) as [df2 H2].
  { intros c col _ _. unfold money_rule. eauto. }
  rewrite H2. cbn [bind].
  destruct (for_each_returns pd PRODUCT_QTY_COLS (quantity_rule pd)
              ltac:(distinct_names) df2) as [df3 H3].
  { intros c col Hin Hc. apply (Hq c col Hin).
    destruct (product_quantity_names c Hin) as (N1 & N2 & _).
    rewrite <- (for_each_untouched pd c _ _ N1 _ _ H1).
    rewrite <- (for_each_untouched pd c _ _ N2 _ _ H2). exact Hc. }
  rewrite H3. cbn [bind].
  destruct (for_each_returns pd ["HEIGHT"; "WEIGHT"; "WIDTH"; "PRODUCT_ID"]
              (numeric_rule pd) ltac:(distinct_names) df3) as [df4 H4].
  { intros c col _ _. unfold numeric_rule. eauto. }
  rewrite H4. cbn [bind]. eauto.
Qed.

(** ... and the two flags as well for warehouses. *)
Lemma clean_wh_df_returns (df : frame) :
  (forall c col, In c ["UPDATED"; "WH_UPDATED"; "WH_CREATED"; "WH_LAST_CHANGE"] ->
                 getcol c df = Some col -> exists s, datetime_rule pd col = Ok s) ->
  (forall c col, In c (WAREHOUSE_QTY_COLS ++ ["PRODUCT_ID"; "WH_ID"]) ->
                 getcol c df = Some col -> exists s, quantity_rule pd col = Ok s) ->
  (forall c col, In c ["WH_SHIP_CFG"; "WH_IS_DEFAULT"] ->
                 getcol c df = Some col -> exists s, astype_boolean pd col = Ok s) ->
  exists out, clean_wh_df pd df = Ok out.
Proof.
  intros Hdt Hq Hb. unfold clean_wh_df.
  destruct (empty df); [eauto|].
  destruct (for_each_returns pd ["UPDATED"; "WH_UPDATED"; "WH_CREATED"; "WH_LAST_CHANGE"]
              (datetime_rule pd) ltac:(distinct_names) df Hdt) as [df1 H1].
  rewrite H1. cbn [bind].
  destruct (for_each_returns pd ["PRICE"; "COST"] (money_rule pd)
              ltac:(distinct_names) df1) as [df2 H2].
  { intros c col _ _. unfold money_rule. eauto. }
  rewrite H2. cbn [bind].
  destruct (for_each_returns pd (WAREHOUSE_QTY_COLS ++ ["PRODUCT_ID"; "WH_ID"])
              (quantity_rule pd) ltac:(distinct_names) df2) as [df3 H3].
  { intros c col Hin Hc. apply (Hq c col Hin).
    destruct (warehouse_quantity_names c Hin) as (N1 & N2 & _).
    rewrite <- (for_each_untouched pd c _ _ N1 _ _ H1).
    rewrite <- (for_each_untouched pd c _ _ N2 _ _ H2). exact Hc. }
  rewrite H3. cbn [bind].
  destruct (for_each_returns pd ["HEIGHT"; "WEIGHT"; "WIDTH"] (numeric_rule pd)
              ltac:(distinct_names) df3) as [df4 H4].
  { intros c col _ _. unfold numeric_rule. eauto. }
  rewrite H4. cbn [bind].
  destruct (for_each_returns pd ["WH_SHIP_CFG"; "WH_IS_DEFAULT"] (astype_boolean pd)
              ltac:(distinct_names) df4) as [df5 H5].
  { intros c col Hin Hc. apply (Hb c col Hin).
    assert (N1 : ~ In c ["UPDATED"; "WH_UPDATED"; "WH_CREATED"; "WH_LAST_CHANGE"])
      by (cbn in Hin |- *; intuition (subst; discriminate)).
    assert (N2 : ~ In c ["PRICE"; "COST"])
      by (cbn in Hin |- *; intuition (subst; discriminate)).
    assert (N3 : ~ In c (WAREHOUSE_QTY_COLS ++ ["PRODUCT_ID"; "WH_ID"]))
      by (cbn in Hin |- *; intuition (subst; discriminate)).
    assert (N4 : ~ In c ["HEIGHT"; "WEIGHT"; "WIDTH"])
      by (cbn in Hin |- *; intuition (subst; discriminate)).
    rewrite <- (for_each_untouched pd c _ _ N1 _ _ H1).
    rewrite <- (for_each_untouched pd c _ _ N2 _ _ H2).
    rewrite <- (for_each_untouched pd c _ _ N3 _ _ H3).
    rewrite <- (for_each_untouched pd c _ _ N4 _ _ H4). exact Hc. }
  rewrite H5. cbn [bind]. eauto.
Qed.

(** An empty frame is reindexed and nothing else. *)
Lemma reindex_quantity_columns_ok qty target (df : frame) :
  well_formed df -> empty df = true ->
  (forall c, In c qty -> existsb (String.eqb c) target = true) ->
  quantity_columns_ok qty df (reindex target df).
Proof.
  intros Hwf He Ht c Hin. rewrite getcol_reindex, (Ht c Hin).
  destruct (getcol c df) as [col|] eqn:Hc; [|reflexivity].
  exists col. rewrite (empty_no_rows _ c col df Hwf Hc He). repeat split. constructor.
Qed.

Lemma reindex_no_rows target (df : frame) :
  well_formed df -> index_len df = 0%nat ->
  Forall (fun kv => snd kv = []) (cols (reindex target df)).
Proof.
  intros Hwf H0. unfold reindex. cbn [cols]. apply Forall_map, Forall_forall.
  intros c _. cbn [snd]. destruct (getcol c df) as [col|] eqn:Hc.
  - apply (well_formed_getcol _ c col df Hwf) in Hc. rewrite H0 in Hc.
    now destruct col.
  - rewrite H0. reflexivity.
Qed.

End Conformance.

(** C4 (as stated it fails), on three frames.
    - A quantity column that the input frame does not have is not "never
      null": [if c in df.columns] skips it and the final [reindex] makes
      it up out of NaN.
    - [clean_wh_df] converts the ten warehouse quantities, PRODUCT_ID and
      WH_ID, not the seven product totals that a warehouse row carries as
      well: a null total stays null in the warehouse frame.
    - The cleaning does not return on every frame: a conversion that
      raises, here [astype("boolean")] on the text ["yes"], ends it. *)
Lemma cleaning_leaves_nulls_or_raises :
  (exists out,
      clean_products_df simple_pandas sku_only = Ok out
      /\ getcol "TOTAL_ON_HAND" out = Some [NaN]
      /\ is_null (@NaN Q) = true)
  /\
  (exists out,
      clean_wh_df simple_pandas warehouse_row_with_null_total = Ok out
      /\ getcol "TOTAL_ON_HAND" out = Some [Obj JNull]
      /\ is_null (@Obj Q JNull) = true
      /\ getcol "ON_HAND" out = Some [Int64 3])
  /\
  clean_wh_df simple_pandas warehouse_row_with_text_flag = Raise TypeError.
Proof.
  split; [|split].
  - eexists. split; [vm_compute; reflexivity|]. split; reflexivity.
  - eexists. split; [vm_compute; reflexivity|]. repeat split; reflexivity.
  - vm_compute. reflexivity.
Qed.

(** C4, amended. Whatever frame goes in, empty or not, what
    [clean_products_df] and [clean_wh_df] return has exactly the target
    columns, in the target order, and as many rows as the input.  Of the
    quantity columns that the input has, the seven totals in the product
    frame, and the ten warehouse quantities, PRODUCT_ID and WH_ID in the
    warehouse frame, are free of nulls in every row (they hold integers);
    one that the input lacks is all NaN.  A frame without rows is always
    cleaned, into a frame without rows that has all the target columns;
    and the cleaning does return unless one of its conversions raises on a
    column of the input. *)
Theorem cleaned_frame_has_target_columns pd :
  (forall df out,
      well_formed df -> clean_products_df pd df = Ok out ->
      columns out = PRODUCT_TARGET_COLS
      /\ index_len out = index_len df
      /\ quantity_columns_ok PRODUCT_QTY_COLS df out)
  /\
  (forall df out,
      well_formed df -> clean_wh_df pd df = Ok out ->
      columns out = WAREHOUSE_TARGET_COLS
      /\ index_len out = index_len df
      /\ quantity_columns_ok (WAREHOUSE_QTY_COLS ++ ["PRODUCT_ID"; "WH_ID"]) df out)
  /\
  (forall df,
      well_formed df -> index_len df = 0%nat ->
      exists outp outw,
        clean_products_df pd df = Ok outp /\ clean_wh_df pd df = Ok outw
        /\ columns outp = PRODUCT_TARGET_COLS /\ columns outw = WAREHOUSE_TARGET_COLS
        /\ index_len outp = 0%nat /\ index_len outw = 0%nat
        /\ Forall (fun kv => snd kv = []) (cols outp)
        /\ Forall (fun kv => snd kv = []) (cols outw))
  /\
  (forall df,
      (forall c col,
          In c ["UPDATED"; "WH_UPDATED"; "WH_CREATED"; "WH_LAST_CHANGE"] ->
          getcol c df = Some col -> exists s, datetime_rule pd col = Ok s) ->
      (forall c col,
          In c (PRODUCT_QTY_COLS ++ WAREHOUSE_QTY_COLS ++ ["PRODUCT_ID"; "WH_ID"]) ->
          getcol c df = Some col -> exists s, quantity_rule pd col = Ok s) ->
      (forall c col,
          In c ["WH_SHIP_CFG"; "WH_IS_DEFAULT"] ->
          getcol c df = Some col -> exists s, astype_boolean pd col = Ok s) ->
      (exists out, clean_products_df pd df = Ok out)
      /\ (exists out, clean_wh_df pd df = Ok out)).
Proof.
  split; [|split; [|split]]; cycle 3.
  - intros df Hdt Hq Hb. split.
    + apply clean_products_df_returns.
      * intros col. apply Hdt. now left.
      * intros c col Hin. apply Hq. apply in_or_app. now left.
    + apply clean_wh_df_returns; auto.
      intros c col Hin. apply Hq. apply in_or_app. now right.
  - intros df out Hwf H. destruct (empty df) eqn:He.
    + unfold clean_products_df in H. rewrite He in H. injection H as <-.
      split; [apply columns_reindex|]. split; [reflexivity|].
      apply reindex_quantity_columns_ok; auto.
      intros c Hc. apply (product_quantity_names c Hc).
    + destruct (clean_products_df_steps pd df out H He)
        as (df1 & df2 & df3 & df4 & H1 & H2 & H3 & H4 & Hout).
      split; [rewrite Hout; apply columns_reindex|]. split.
      * rewrite Hout. cbn [reindex index_len].
        rewrite (for_each_index_len pd _ _ _ _ H4), (for_each_index_len pd _ _ _ _ H3),
          (for_each_index_len pd _ _ _ _ H2), (for_each_index_len pd _ _ _ _ H1).
        reflexivity.
      * intros c Hc. pose proof (products_quantity_column pd df out c H He Hc) as Hq.
        destruct (getcol c df) as [col|]; [|exact Hq].
        destruct Hq as (col' & Hq & Hout').
        exists col'. split; [exact Hout'|]. now apply quantity_rule_integers.
  - intros df out Hwf H. destruct (empty df) eqn:He.
    + unfold clean_wh_df in H. rewrite He in H. injection H as <-.
      split; [apply columns_reindex|]. split; [reflexivity|].
      apply reindex_quantity_columns_ok; auto.
      intros c Hc. apply (warehouse_quantity_names c Hc).
    + destruct (clean_wh_df_steps pd df out H He)
        as (df1 & df2 & df3 & df4 & df5 & H1 & H2 & H3 & H4 & H5 & Hout).
      split; [rewrite Hout; apply columns_reindex|]. split.
      * rewrite Hout. cbn [reindex index_len].
        rewrite (for_each_index_len pd _ _ _ _ H5),
          (for_each_index_len pd _ _ _ _ H4), (for_each_index_len pd _ _ _ _ H3),
          (for_each_index_len pd _ _ _ _ H2), (for_each_index_len pd _ _ _ _ H1).
        reflexivity.
      * intros c Hc. pose proof (warehouse_quantity_column pd df out c H He Hc) as Hq.
        destruct (getcol c df) as [col|]; [|exact Hq].
        destruct Hq as (col' & Hq & Hout').
        exists col'. split; [exact Hout'|]. now apply quantity_rule_integers.
  - intros df Hwf H0.
    assert (He : empty df = true) by (unfold empty; rewrite H0; reflexivity).
    exists (reindex PRODUCT_TARGET_COLS df), (reindex WAREHOUSE_TARGET_COLS df).
    unfold clean_products_df, clean_wh_df. rewrite He.
    repeat split; auto using columns_reindex, reindex_no_rows.
Qed.

Lemma cleaned_frame_has_target_columns_witness :
  exists out,
    clean_products_df simple_pandas two_products = Ok out
    /\ columns out = PRODUCT_TARGET_COLS
    /\ getcol "TOTAL_ON_HAND" out = Some [Int64 0; Int64 12]
    /\ getcol "TOTAL_AVAILABLE" out = Some [NaN; NaN].
Proof.
  eexists. split; [vm_compute; reflexivity|].
  split; [|split; reflexivity].
  eapply (proj1 (cleaned_frame_has_target_columns simple_pandas) two_products).
  - repeat constructor.
  - vm_compute. reflexivity.
Defined.

(** C9. A quantity value that does not parse as a number comes out of the
    cleaning stage as the integer 0, not as a null, in the product frame
    (the seven totals) and in the warehouse frame (the ten quantities,
    PRODUCT_ID and WH_ID) alike; "abc" is such a value for any parser that
    rejects it; and such values raise nothing: a column made of them is
    converted, into zeros.  (That the zero put in by [fillna(0)] is cast
    to the integer 0 is all that is asked of pandas.) *)
Theorem unparsable_quantity_is_zero pd :
  as_int64 pd (round_to pd 0 (zero pd)) = Some 0 ->
  (forall df out c col i v,
      well_formed df -> clean_products_df pd df = Ok out ->
      In c PRODUCT_QTY_COLS ->
      getcol c df = Some col -> nth_error col i = Some (Obj v) ->
      numeric_of pd v = None ->
      exists col', getcol c out = Some col'
                   /\ nth_error col' i = Some (Int64 0)
                   /\ is_null (@Int64 (float64 pd) 0) = false)
  /\
  (forall df out c col i v,
      well_formed df -> clean_wh_df pd df = Ok out ->
      In c (WAREHOUSE_QTY_COLS ++ ["PRODUCT_ID"; "WH_ID"]) ->
      getcol c df = Some col -> nth_error col i = Some (Obj v) ->
      numeric_of pd v = None ->
      exists col', getcol c out = Some col'
                   /\ nth_error col' i = Some (Int64 0)
                   /\ is_null (@Int64 (float64 pd) 0) = false)
  /\
  (forall col,
      Forall (fun c => exists v, c = Obj v /\ numeric_of pd v = None) col ->
      quantity_rule pd col = Ok (map (fun _ => Int64 0) col)).
Proof.
  intros Hzero.
  assert (Hcell : forall col col' i v,
             quantity_rule pd col = Ok col' ->
             nth_error col i = Some (Obj v) -> numeric_of pd v = None ->
             nth_error col' i = Some (Int64 0)).
  { intros col col' i v Hq Hi Hv. apply quantity_rule_cells in Hq.
    destruct (Forall2_nth_error_l _ _ _ Hq i _ Hi) as (c' & Hi' & _ & Hc').
    destruct (Hc' v eq_refl Hv) as (z & Hz & ->). rewrite Hi'. congruence. }
  assert (Hne : forall (df : DataFrame (float64 pd)) c col i x,
             well_formed df -> getcol c df = Some col ->
             nth_error col i = Some x -> empty df = false).
  { intros df c col i x Hwf Hc Hi. destruct (empty df) eqn:He; [|reflexivity].
    rewrite (empty_no_rows _ c col df Hwf Hc He) in Hi. destruct i; discriminate. }
  split; [|split]; [| |intros col; now apply quantity_rule_unparsable];
    intros df out c col i v Hwf H Hin Hc Hi Hv;
    pose proof (Hne df c col i _ Hwf Hc Hi) as He.
  - pose proof (products_quantity_column pd df out c H He Hin) as Hq.
    rewrite Hc in Hq. destruct Hq as (col' & Hq & Hout).
    exists col'. eauto.
  - pose proof (warehouse_quantity_column pd df out c H He Hin) as Hq.
    rewrite Hc in Hq. destruct Hq as (col' & Hq & Hout).
    exists col'. eauto.
Qed.

Lemma unparsable_quantity_is_zero_witness :
  (exists out col',
      clean_products_df simple_pandas two_products = Ok out
      /\ getcol "TOTAL_ON_HAND" out = Some col'
      /\ nth_error col' 0 = Some (Int64 0))
  /\
  (exists out col',
      clean_wh_df simple_pandas one_warehouse_row = Ok out
      /\ getcol "POH" out = Some col'
      /\ nth_error col' 0 = Some (Int64 0))
  /\
  quantity_rule simple_pandas [Obj (JStr "abc"); Obj JNull]
  = Ok [Int64 0; Int64 0].
Proof.
  pose proof (unparsable_quantity_is_zero simple_pandas eq_refl) as (Hp & Hw & Hq).
  split; [|split].
  - eexists.
    assert (Hout : clean_products_df simple_pandas two_products = Ok _)
      by (vm_compute; reflexivity).
    destruct (Hp two_products _ "TOTAL_ON_HAND" _ 0%nat (JStr "abc")
                 ltac:(repeat constructor) Hout ltac:(cbn; auto)
                 eq_refl eq_refl eq_refl) as (col' & Hc & Hi & _).
    exists col'. split; [exact Hout|]. split; assumption.
  - eexists.
    assert (Hout : clean_wh_df simple_pandas one_warehouse_row = Ok _)
      by (vm_compute; reflexivity).
    destruct (Hw one_warehouse_row _ "POH" _ 0%nat (JStr "abc")
                 ltac:(repeat constructor) Hout ltac:(cbn; auto 20)
                 eq_refl eq_refl eq_refl) as (col' & Hc & Hi & _).
    exists col'. split; [exact Hout|]. split; assumption.
  - apply (Hq [Obj (JStr "abc"); Obj JNull]).
    repeat constructor; eexists; split; reflexivity.
Defined.

(* ===================================================================== *)
(** ** Facts about the de-duplicating loop *)
(* ===================================================================== *)

Example dedup_run_example :
  match dedup_run repr_unused [[widget; widget]; [JDict [("sku", JStr "no id")]; widget]] with
  | Ok (rows, (pids, keys)) =>
      map (fun b => (List.length (fst b), List.length (snd b))) rows
      = [(1%nat, 2%nat); (0%nat, 0%nat)]
      /\ pids = [JInt 7]
      /\ keys = [(JInt 7, JInt 5, "2024-01-01"); (JInt 7, JInt 5, "2024-02-01")]
  | Raise _ => False
  end.
Proof. vm_compute. auto. Qed.





Section LoopFacts.

Variable repr : json -> string.











End LoopFacts.

Section Scenarios.

Variable repr : json -> string.






End Scenarios.

Section Flattening.

Variable repr : json -> string.







End Flattening.




Example main_example :
  match main repr_unused simple_pandas
             {| PAGE_LIMIT := 2; MAX_RETRIES := 5; BACKOFF_BASE := default_backoff |}
             (finite_source [widget; product 8; product 9; widget]) 5 with
  | Some (w, written, Ok tt) =>
      requests_made (log w)
      = [offset_request 2 0; offset_request 2 2; offset_request 2 4]
      /\ map (fun tw => (fst tw, index_len (snd tw))) written
         = [(TABLE_PRODUCTS_SNAP, 2%nat); (TABLE_WAREHOUSES_SNAP, 2%nat);
            (TABLE_PRODUCTS_SNAP, 1%nat)]
  | _ => False
  end.
Proof. vm_compute. auto. Qed.

Section Pipeline.

Variable repr : json -> string.

Lemma base_product_cols_keys p r :
  base_product_cols repr p = Ok (Some r) -> map fst r = PRODUCT_TARGET_COLS.
Proof.
  unfold base_product_cols. cbn [FILTER_ARCHIVED andb].
  destruct (_join_carts repr _); [|discriminate]. cbn [bind].
  intros [= <-]. reflexivity.
Qed.

Lemma rows_for_warehouses_keys p rs :
  rows_for_warehouses repr p = Ok rs ->
  Forall (fun r => map fst r = WAREHOUSE_TARGET_COLS) rs.
Proof.
  unfold rows_for_warehouses.
  destruct (base_product_cols repr p) as [[base|]|] eqn:Eb; [| |discriminate];
    cbn [bind]; [|intros [= <-]; constructor].
  destruct (py_iter _) as [ws|]; [|discriminate]. cbn [bind]. intros [= <-].
  apply Forall_flat_map, Forall_forall. intros w _.
  destruct w; constructor; [|constructor].
  rewrite map_app, (base_product_cols_keys p base Eb). reflexivity.
Qed.

(* ===================================================================== *)
(** ** What [main] hands to the cleaning stage *)
(* ===================================================================== *)

Lemma admit_warehouses_shaped rs : forall st st',
  rows_shaped st ->
  Forall (fun r => map fst r = WAREHOUSE_TARGET_COLS) rs ->
  admit_warehouses repr st rs = Ok st' -> rows_shaped st'.
Proof.
  induction rs as [|r rs IH]; intros st st' Hs Hrs; cbn [admit_warehouses].
  - now intros [= <-].
  - inversion Hrs as [|? ? Hr Hrest]; subst.
    unfold admit_warehouse. destruct (key_in _ _) as [seen|]; [|discriminate].
    cbn [bind]. destruct seen; cbn [negb bind]; apply IH; auto.
    destruct Hs as [Hp Hw]. split; cbn [prod_rows wh_rows]; [exact Hp|].
    apply Forall_app. auto.
Qed.

Lemma process_record_shaped st p st' :
  rows_shaped st -> process_record repr st p = Ok st' -> rows_shaped st'.
Proof.
  intros Hs. destruct p as [| | | | | |d]; try discriminate.
  cbn [process_record]. destruct (Py.is_none _); [now intros [= <-]|].
  unfold admit_product. destruct (pid_in _ _) as [seen|]; [|discriminate].
  cbn [bind]. destruct seen; cbn [negb bind].
  - destruct (rows_for_warehouses repr d) as [rs|] eqn:Er; [|discriminate].
    cbn [bind]. apply admit_warehouses_shaped; eauto using rows_for_warehouses_keys.
  - destruct (base_product_cols repr d) as [[r|]|] eqn:Eb; [| |discriminate];
      cbn [bind];
      (destruct (rows_for_warehouses repr d) as [rs|] eqn:Er; [|discriminate]);
      cbn [bind]; apply admit_warehouses_shaped;
      eauto using rows_for_warehouses_keys.
    destruct Hs as [Hp Hw]. split; cbn [prod_rows wh_rows]; [|exact Hw].
    apply Forall_app. split; [exact Hp|].
    constructor; [|constructor]. eapply base_product_cols_keys; eauto.
Qed.

Lemma process_batch_shaped p0 w0 batch st :
  process_batch repr p0 w0 batch = Ok st -> rows_shaped st.
Proof.
  unfold process_batch.
  assert (H0 : rows_shaped {| seen_pid := p0; seen_wh := w0;
                              prod_rows := []; wh_rows := [] |})
    by (split; constructor).
  revert H0. generalize {| seen_pid := p0; seen_wh := w0;
                           prod_rows := []; wh_rows := [] |}.
  induction batch as [|p batch IH]; intros st0 H0; cbn [process_records].
  - now intros [= <-].
  - destruct (process_record repr st0 p) as [st1|] eqn:E; [|discriminate].
    cbn [bind]. apply IH. eapply process_record_shaped; eauto.
Qed.

End Pipeline.

Section FramesOfRows.

Variable X : Type.

Lemma keys_fold_known (r : row) : forall acc,
  (forall kv, In kv r -> existsb (String.eqb (fst kv)) acc = true) ->
  fold_left add_key r acc = acc.
Proof.
  induction r as [|kv r IH]; intros acc Hk; cbn [fold_left]; [reflexivity|].
  unfold add_key at 2. rewrite (Hk kv (or_introl eq_refl)).
  apply IH. intros kv' Hin. apply Hk. now right.
Qed.

Lemma keys_fold_fresh (r : row) : forall acc,
  NoDup (map fst r) ->
  (forall kv, In kv r -> existsb (String.eqb (fst kv)) acc = false) ->
  fold_left add_key r acc = acc ++ map fst r.
Proof.
  induction r as [|kv r IH]; intros acc Hnd Hk; cbn [fold_left map].
  - now rewrite app_nil_r.
  - inversion Hnd as [|? ? Hnin Hnd']; subst.
    unfold add_key at 2. rewrite (Hk kv (or_introl eq_refl)).
    rewrite IH; [now rewrite <- app_assoc|exact Hnd'|].
    intros kv' Hin. rewrite existsb_app, (Hk kv' (or_intror Hin)). cbn [existsb orb].
    rewrite orb_false_r. apply String.eqb_neq. intros Heq. apply Hnin.
    rewrite <- Heq. now apply in_map.
Qed.

Lemma keys_of_uniform (T : list string) (rows : list row) :
  NoDup T -> rows <> [] -> Forall (fun r => map fst r = T) rows ->
  keys_of rows = T.
Proof.
  intros Hnd Hne Hall. destruct rows as [|r1 rows]; [contradiction|].
  inversion Hall as [|? ? H1 Hrest]; subst. unfold keys_of. cbn [fold_left].
  fold add_key. rewrite keys_fold_fresh; [|exact Hnd|reflexivity]. cbn [app].
  clear Hall Hne. induction Hrest as [|r rows Hr Hrest IH]; [reflexivity|].
  cbn [fold_left]. fold add_key. rewrite keys_fold_known; [exact IH|].
  intros kv Hin. apply existsb_eqb_In. rewrite <- Hr. now apply in_map.
Qed.

Lemma getcol_DataFrame_of c (rows : list row) :
  getcol c (@DataFrame_of X rows)
  = if existsb (String.eqb c) (keys_of rows)
    then Some (map (fun r => match Py.assoc c r with
                             | Some v => Obj v
                             | None => NaN
                             end) rows)
    else None.
Proof.
  unfold getcol, DataFrame_of. cbn [cols].
  apply (assoc_tabulate c (fun k => map (fun r => match Py.assoc k r with
                                                  | Some v => Obj v
                                                  | None => NaN
                                                  end) rows)).
Qed.

Lemma well_formed_DataFrame_of (rows : list row) :
  well_formed (@DataFrame_of X rows).
Proof.
  unfold well_formed, DataFrame_of. cbn [cols index_len].
  apply Forall_map, Forall_forall. intros c _. cbn [snd]. apply length_map.
Qed.

Lemma DataFrame_of_not_empty (rows : list row) :
  rows <> [] -> keys_of rows <> [] -> empty (@DataFrame_of X rows) = false.
Proof.
  intros Hr Hk. unfold empty, DataFrame_of. cbn [index_len cols].
  rewrite length_map. destruct rows; [contradiction|].
  destruct (keys_of _); [contradiction|]. reflexivity.
Qed.

End FramesOfRows.

Section WrittenFrames.

Variable repr : json -> string.
Variable pd : Pandas.

(** In the frames that [main] writes no quantity is ever null: the rows it
    collects carry every target column, so every quantity column is there
    to be converted. *)
Lemma written_quantities_are_not_null st ws :
  rows_shaped st -> write_batch pd st = Ok ws ->
  forall t df, In (t, df) ws ->
    (t = TABLE_PRODUCTS_SNAP /\ columns df = PRODUCT_TARGET_COLS
     /\ forall c, In c PRODUCT_QTY_COLS ->
          exists col, getcol c df = Some col
                      /\ Forall (fun x => is_null x = false) col)
    \/ (t = TABLE_WAREHOUSES_SNAP /\ columns df = WAREHOUSE_TARGET_COLS
        /\ forall c, In c (WAREHOUSE_QTY_COLS ++ ["PRODUCT_ID"; "WH_ID"]) ->
             exists col, getcol c df = Some col
                         /\ Forall (fun x => is_null x = false) col).
Proof.
  intros [Hp Hw] Hwrite t df Hin. unfold write_batch in Hwrite.
  destruct (prod_rows st) as [|r rs] eqn:Er.
  - (* no product rows: only the warehouse frame can have been written *)
    cbn [bind] in Hwrite.
    destruct (wh_rows st) as [|r' rs'] eqn:Ew;
      [injection Hwrite as <-; contradiction|].
    destruct (clean_wh_df pd _) as [out|] eqn:Ec; [|discriminate].
    cbn [bind app] in Hwrite. injection Hwrite as <-.
    destruct Hin as [[= <- <-]|[]]. right.
    assert (Hk : keys_of (r' :: rs') = WAREHOUSE_TARGET_COLS)
      by (apply keys_of_uniform; [distinct_names|discriminate|exact Hw]).
    assert (He : empty (@DataFrame_of (float64 pd) (r' :: rs')) = false)
      by (apply DataFrame_of_not_empty; [|rewrite Hk]; discriminate).
    split; [reflexivity|]. split.
    + destruct (clean_wh_df_steps pd _ _ Ec He)
        as (df1 & df2 & df3 & df4 & df5 & _ & _ & _ & _ & _ & ->).
      apply columns_reindex.
    + intros c Hc. pose proof (warehouse_quantity_column pd _ _ c Ec He Hc) as Hq.
      rewrite getcol_DataFrame_of, Hk in Hq.
      rewrite (proj2 (proj2 (proj2 (proj2 (warehouse_quantity_names c Hc))))) in Hq.
      destruct Hq as (col' & Hq & Hout). exists col'. split; [exact Hout|].
      apply quantity_rule_integers in Hq as [_ Hq].
      eapply Forall_impl; [|exact Hq]. now intros x [Hx _].
  - destruct (clean_products_df pd _) as [outp|] eqn:Ecp; [|discriminate].
    cbn [bind] in Hwrite.
    assert (Hkp : keys_of (r :: rs) = PRODUCT_TARGET_COLS)
      by (apply keys_of_uniform; [distinct_names|discriminate|exact Hp]).
    assert (Hep : empty (@DataFrame_of (float64 pd) (r :: rs)) = false)
      by (apply DataFrame_of_not_empty; [|rewrite Hkp]; discriminate).
    assert (Hprod : columns outp = PRODUCT_TARGET_COLS
                    /\ forall c, In c PRODUCT_QTY_COLS ->
                         exists col, getcol c outp = Some col
                                     /\ Forall (fun x => is_null x = false) col).
    { split.
      - destruct (clean_products_df_steps pd _ _ Ecp Hep)
          as (df1 & df2 & df3 & df4 & _ & _ & _ & _ & ->).
        apply columns_reindex.
      - intros c Hc. pose proof (products_quantity_column pd _ _ c Ecp Hep Hc) as Hq.
        rewrite getcol_DataFrame_of, Hkp in Hq.
        rewrite (proj2 (proj2 (proj2 (product_quantity_names c Hc)))) in Hq.
        destruct Hq as (col' & Hq & Hout). exists col'. split; [exact Hout|].
        apply quantity_rule_integers in Hq as [_ Hq].
        eapply Forall_impl; [|exact Hq]. now intros x [Hx _]. }
    destruct (wh_rows st) as [|r' rs'] eqn:Ew.
    + cbn [bind app] in Hwrite. injection Hwrite as <-.
      destruct Hin as [[= <- <-]|[]]. left. split; [reflexivity|exact Hprod].
    + destruct (clean_wh_df pd _) as [out|] eqn:Ec; [|discriminate].
      cbn [bind app] in Hwrite. injection Hwrite as <-.
      destruct Hin as [[= <- <-]|[[= <- <-]|[]]];
        [left; split; [reflexivity|exact Hprod]|right].
      assert (Hk : keys_of (r' :: rs') = WAREHOUSE_TARGET_COLS)
        by (apply keys_of_uniform; [distinct_names|discriminate|exact Hw]).
      assert (He : empty (@DataFrame_of (float64 pd) (r' :: rs')) = false)
        by (apply DataFrame_of_not_empty; [|rewrite Hk]; discriminate).
      split; [reflexivity|]. split.
      * destruct (clean_wh_df_steps pd _ _ Ec He)
          as (df1 & df2 & df3 & df4 & df5 & _ & _ & _ & _ & _ & ->).
        apply columns_reindex.
      * intros c Hc. pose proof (warehouse_quantity_column pd _ _ c Ec He Hc) as Hq.
        rewrite getcol_DataFrame_of, Hk in Hq.
        rewrite (proj2 (proj2 (proj2 (proj2 (warehouse_quantity_names c Hc))))) in Hq.
        destruct Hq as (col' & Hq & Hout). exists col'. split; [exact Hout|].
        apply quantity_rule_integers in Hq as [_ Hq].
        eapply Forall_impl; [|exact Hq]. now intros x [Hx _].
Qed.

End WrittenFrames.
